(** * OPNsense MCP server: reconciliation, search, dispatch and event broker

    A shallow embedding of [opnsense_mcp/tools/arp.py],
    [opnsense_mcp/tools/dhcp.py], [opnsense_mcp/tools/system.py] and of the
    dispatcher and SSE broker of [opnsense_mcp/server_sse.py], followed by
    the properties of the specification, stated over that embedding.

    Python dictionaries are [gmap string _], Python exceptions are an error
    monad, the module-level registry [client_connections] is threaded
    explicitly, and the asynchronous generator behind [/sse] is a small
    state machine that is resumed step by step. *)

From Stdlib Require Import ZArith String Ascii List Bool Lia DecimalString.
From stdpp Require Import base option list gmap strings fin_maps.

Local Open Scope string_scope.
Local Open Scope Z_scope.

(* ===================================================================== *)
(** * Part I: the embedding *)
(* ===================================================================== *)

(** ** Python values, strings and exceptions *)

Module Py.

(** The scalar values that occur in the rows handed over by the
    collaborator (decoded JSON) and in tool arguments. *)
Inductive pyval : Type :=
  | PNone
  | PBool (b : bool)
  | PInt (n : Z)
  | PStr (s : string).

(** [bool(v)] *)
Definition truthy (v : pyval) : bool :=
  match v with
  | PNone => false
  | PBool b => b
  | PInt n => negb (n =? 0)
  | PStr s => negb (String.eqb s "")
  end.

(** [a == b]; [True == 1] and [False == 0] as in Python. *)
Definition py_eqb (a b : pyval) : bool :=
  match a, b with
  | PNone, PNone => true
  | PBool x, PBool y => Bool.eqb x y
  | PBool x, PInt n | PInt n, PBool x => n =? (if x then 1 else 0)
  | PInt n, PInt m => n =? m
  | PStr s, PStr t => String.eqb s t
  | _, _ => false
  end.

(** [a or b] *)
Definition py_or (a b : pyval) : pyval := if truthy a then a else b.

(** [d.get(k)] and [d.get(k, dflt)] *)
Definition py_get (d : gmap string pyval) (k : string) : pyval :=
  default PNone (d !! k).

Definition py_get_or (d : gmap string pyval) (k : string) (dflt : pyval) : pyval :=
  default dflt (d !! k).

(** [v in s] for a set (or the keys of a dict) listed as [s]. *)
Definition py_in (v : pyval) (s : list pyval) : bool := existsb (py_eqb v) s.

(** A string is the UTF-8 encoding of the Python string. Case mapping is
    that of the ASCII letters; white space is white space as [str.isspace]
    knows it, in the ASCII range and beyond. *)
Definition lower_ascii (c : ascii) : ascii :=
  let n := nat_of_ascii c in
  if ((65 <=? n) && (n <=? 90))%nat then ascii_of_nat (n + 32) else c.

(** [s.lower()] *)
Fixpoint lower (s : string) : string :=
  match s with
  | EmptyString => EmptyString
  | String c s' => String (lower_ascii c) (lower s')
  end.

(** White space of one byte: U+0009 to U+000D, U+001C to U+0020. *)
Definition is_space (c : ascii) : bool :=
  let n := nat_of_ascii c in
  (((9 <=? n) && (n <=? 13)) || ((28 <=? n) && (n <=? 32)))%nat.

(** White space of two bytes: U+0085 and U+00A0. *)
Definition is_space2 (c1 c2 : ascii) : bool :=
  let n1 := nat_of_ascii c1 in
  let n2 := nat_of_ascii c2 in
  ((n1 =? 194) && ((n2 =? 133) || (n2 =? 160)))%nat.

(** White space of three bytes: U+1680, U+2000 to U+200A, U+2028, U+2029,
    U+202F, U+205F and U+3000. *)
Definition is_space3 (c1 c2 c3 : ascii) : bool :=
  let n1 := nat_of_ascii c1 in
  let n2 := nat_of_ascii c2 in
  let n3 := nat_of_ascii c3 in
  (((n1 =? 225) && (n2 =? 154) && (n3 =? 128))
   || ((n1 =? 226) && (n2 =? 128)
       && (((128 <=? n3) && (n3 <=? 138))
           || (n3 =? 168) || (n3 =? 169) || (n3 =? 175)))
   || ((n1 =? 226) && (n2 =? 129) && (n3 =? 159))
   || ((n1 =? 227) && (n2 =? 128) && (n3 =? 128)))%nat.

Fixpoint lstrip (s : string) : string :=
  match s with
  | EmptyString => EmptyString
  | String c1 s1 =>
      if is_space c1 then lstrip s1 else
      match s1 with
      | String c2 s2 =>
          if is_space2 c1 c2 then lstrip s2 else
          match s2 with
          | String c3 s3 => if is_space3 c1 c2 c3 then lstrip s3 else s
          | EmptyString => s
          end
      | EmptyString => s
      end
  end.

(** What is left of [s] once the white space at its end is dropped: [s]
    is cut where nothing but white space follows. *)
Fixpoint rstrip (s : string) : string :=
  match s with
  | EmptyString => EmptyString
  | String c s' =>
      match lstrip s with
      | EmptyString => EmptyString
      | _ => String c (rstrip s')
      end
  end.

(** [s.strip()] *)
Definition strip (s : string) : string := rstrip (lstrip s).

(** [q in s] for strings: [q] occurs in [s] as a contiguous substring. *)
Fixpoint contains (q s : string) : bool :=
  String.prefix q s ||
  match s with
  | EmptyString => false
  | String _ s' => contains q s'
  end.

(** [str(v)] *)
Definition py_str (v : pyval) : string :=
  match v with
  | PNone => "None"
  | PBool true => "True"
  | PBool false => "False"
  | PInt n => NilZero.string_of_int (Z.to_int n)
  | PStr s => s
  end.

(** Exceptions, by class. [Upstream] stands for whatever the collaborator
    raises (transport errors and the like). *)
Inductive pyexn : Type :=
  | AttributeError (msg : string)
  | TypeError (msg : string)
  | KeyError (msg : string)
  | ValidationError (msg : string)
  | Upstream (msg : string)
  | HTTPException (status_code : Z) (detail : string).

(** [str(e)]; an [HTTPException] prints as ["<status>: <detail>"]. *)
Definition exn_str (e : pyexn) : string :=
  match e with
  | AttributeError m | TypeError m | KeyError m | ValidationError m
  | Upstream m => m
  | HTTPException c d => py_str (PInt c) +:+ ": " +:+ d
  end.

(** A computation that returns or raises. *)
Inductive exc (A : Type) : Type :=
  | Ok (a : A)
  | Raise (e : pyexn).
Arguments Ok {A} a.
Arguments Raise {A} e.

#[export] Instance exc_ret : MRet exc := @Ok.
#[export] Instance exc_bind : MBind exc := fun A B f m =>
  match m with
  | Ok a => f a
  | Raise e => Raise e
  end.

#[export] Instance exc_fmap : FMap exc := fun A B f m =>
  match m with
  | Ok a => Ok (f a)
  | Raise e => Raise e
  end.

(** [try: body except Exception as e: handler(e)] *)
Definition try_except {A} (body : exc A) (handler : pyexn → exc A) : exc A :=
  match body with
  | Ok a => Ok a
  | Raise e => handler e
  end.

(** [v.lower()], [v.strip()]: only strings have these attributes. *)
Definition str_method (name : string) (f : string → string) (v : pyval)
  : exc string :=
  match v with
  | PStr s => Ok (f s)
  | _ => Raise (AttributeError ("object has no attribute '" +:+ name +:+ "'"))
  end.

Definition lower_of := str_method "lower" lower.
Definition strip_of := str_method "strip" strip.

End Py.
Export Py.

(** ** The external collaborator *)

Module Collaborator.

(** A value of the dictionary returned by [resolve_host_info]: a scalar, or
    a DHCP lease nested under a key such as ["dhcpv4"]. *)
Inductive infoval : Type :=
  | IVal (v : pyval)
  | IDict (d : gmap string pyval).

(** The methods of the client object that the tools call. Each call returns
    or raises; [resolve_host_info] is an optional capability
    ([hasattr(self.client, "resolve_host_info")]). The lease and neighbour
    tables are sequences of rows. *)
Record Client : Type := {
  get_arp_table : exc (list (gmap string pyval));
  get_ndp_table : exc (list (gmap string pyval));
  get_dhcpv4_leases : exc (list (gmap string pyval));
  get_dhcpv6_leases : exc (list (gmap string pyval));
  resolve_host_info : option (pyval → exc (gmap string infoval));
  get_system_status : exc (gmap string pyval)
}.

End Collaborator.
Export Collaborator.

(** ** pydantic models

    The models of the two tools: a row is validated against the model and
    dumped back to a dictionary (the [model_dump] of the model built from
    the row). A field
    annotated [str] accepts exactly a string; a field annotated [T | None]
    accepts [None], defaults to [None] when the key is absent, and
    otherwise validates as [T]. Keys that are not fields are ignored. How
    pydantic coerces a value offered to an [int] or a [bool] field is left
    to the library: it is taken as a parameter. *)

Module Pydantic.

Definition validate_str (v : pyval) : option pyval :=
  match v with
  | PStr _ => Some v
  | _ => None
  end.

Definition required (validate : pyval → option pyval)
    (row : gmap string pyval) (k : string) : option pyval :=
  row !! k ≫= validate.

Definition optional (validate : pyval → option pyval)
    (row : gmap string pyval) (k : string) : option pyval :=
  match row !! k with
  | None | Some PNone => Some PNone
  | Some v => validate v
  end.

Definition validated {A} (o : option A) : exc A :=
  match o with
  | Some a => Ok a
  | None => Raise (ValidationError "validation error")
  end.

Section Models.
Variables validate_int validate_bool : pyval → option pyval.

(** [class ARPEntry(BaseModel)] *)
Definition ARPEntry_model_dump (row : gmap string pyval)
  : exc (gmap string pyval) :=
  validated (
    mac ← required validate_str row "mac";
    ip ← required validate_str row "ip";
    intf ← required validate_str row "intf";
    manufacturer ← optional validate_str row "manufacturer";
    hostname ← optional validate_str row "hostname";
    expires ← optional validate_int row "expires";
    permanent ← optional validate_bool row "permanent";
    type ← optional validate_str row "type";
    description ← optional validate_str row "description";
    dhcp_status ← optional validate_str row "dhcp_status";
    Some (<["mac" := mac]> (<["ip" := ip]> (<["intf" := intf]>
         (<["manufacturer" := manufacturer]> (<["hostname" := hostname]>
         (<["expires" := expires]> (<["permanent" := permanent]>
         (<["type" := type]> (<["description" := description]>
         (<["dhcp_status" := dhcp_status]> ∅))))))))))).

(** [class DHCPLease(BaseModel)] *)
Definition DHCPLease_model_dump (row : gmap string pyval)
  : exc (gmap string pyval) :=
  validated (
    ip ← required validate_str row "ip";
    mac ← required validate_str row "mac";
    hostname ← optional validate_str row "hostname";
    start ← optional validate_str row "start";
    end_ ← optional validate_str row "end";
    online ← optional validate_bool row "online";
    lease_type ← optional validate_str row "lease_type";
    description ← optional validate_str row "description";
    actual_status ← optional validate_str row "actual_status";
    Some (<["ip" := ip]> (<["mac" := mac]> (<["hostname" := hostname]>
         (<["start" := start]> (<["end" := end_]> (<["online" := online]>
         (<["lease_type" := lease_type]> (<["description" := description]>
         (<["actual_status" := actual_status]> ∅)))))))))).

End Models.

(** Validators that accept exactly the declared type, for running the
    models on concrete rows. *)
Definition strict_int (v : pyval) : option pyval :=
  match v with
  | PInt _ => Some v
  | _ => None
  end.

Definition strict_bool (v : pyval) : option pyval :=
  match v with
  | PBool _ => Some v
  | _ => None
  end.

End Pydantic.
Export Pydantic.

(** ** [opnsense_mcp/tools/arp.py] *)

Module ARPTool.

(** The dictionary that [execute] returns: keys ["arp"], ["ndp"] and
    ["status"]. *)
Record Result : Type := {
  arp : list (gmap string pyval);
  ndp : list (gmap string pyval);
  status : string
}.

(** [dhcp_ip_map]: a dictionary keyed by whatever value a lease carries as
    its address. The binding added last is found first. *)
Definition ip_map_lookup (m : list (pyval * gmap string pyval)) (k : pyval)
  : option (gmap string pyval) :=
  snd <$> List.find (λ kv, py_eqb k kv.1) m.

(** [if dhcp_info:] a dictionary is true when it is not empty. *)
Definition dict_truthy (d : gmap string pyval) : bool :=
  negb (bool_decide (d = ∅)).

(** One iteration of the two loops that fill [dhcp_ip_map] and
    [dhcp_mac_map]. *)
Definition add_lease
    (maps : list (pyval * gmap string pyval) * gmap string (gmap string pyval))
    (lease : gmap string pyval)
  : exc (list (pyval * gmap string pyval) * gmap string (gmap string pyval)) :=
  let ip := py_or (py_get lease "ip") (py_get lease "address") in
  let mac := py_get lease "mac" in
  let ip_map := if truthy ip then (ip, lease) :: maps.1 else maps.1 in
  if truthy mac then
    m ← lower_of mac;
    mret (ip_map, <[m := lease]> maps.2)
  else mret (ip_map, maps.2).

Fixpoint add_leases
    (maps : list (pyval * gmap string pyval) * gmap string (gmap string pyval))
    (leases : list (gmap string pyval))
  : exc (list (pyval * gmap string pyval) * gmap string (gmap string pyval)) :=
  match leases with
  | [] => mret maps
  | lease :: rest => maps' ← add_lease maps lease; add_leases maps' rest
  end.

(** A comprehension whose condition may raise. *)
Fixpoint filterM {A} (p : A → exc bool) (l : list A) : exc (list A) :=
  match l with
  | [] => mret []
  | x :: rest =>
      b ← p x;
      rest' ← filterM p rest;
      mret (if (b : bool) then x :: rest' else rest')
  end.

(** [match_any], the closure of the search branch, with the token set
    [all_queries] made explicit. *)
Definition match_any (all_queries : list string) (entry : gmap string pyval)
  : bool :=
  existsb (λ q,
    contains q (lower (py_str (py_get_or entry "ip" (PStr ""))))
    || contains q (lower (py_str (py_get_or entry "mac" (PStr ""))))
    || contains q (lower (py_str (py_get_or entry "hostname" (PStr "")))))
    all_queries.

(** [set.add(v)]: a dictionary is not hashable. *)
Definition hashable (v : infoval) : exc pyval :=
  match v with
  | IVal x => mret x
  | IDict _ => Raise (TypeError "unhashable type: 'dict'")
  end.

Definition info_truthy (v : infoval) : bool :=
  match v with
  | IVal x => truthy x
  | IDict d => dict_truthy d
  end.

Definition info_get (info : gmap string infoval) (k : string) : infoval :=
  default (IVal PNone) (info !! k).

(** [if info.get(k): s.add(info[k])] *)
Definition add_resolved (info : gmap string infoval) (k : string)
  : exc (list pyval) :=
  if info_truthy (info_get info k) then
    v ← hashable (info_get info k); mret [v]
  else mret [].

Definition add_truthy (v : pyval) (s : list pyval) : list pyval :=
  if truthy v then v :: s else s.

(** The token set [all_queries] of a filtered search ([arp.py], lines
    99-136). The four sets are kept as lists: only membership is used. *)
Definition resolve_queries (client : Client) (search_query : pyval)
  : exc (list string) :=
  match resolve_host_info client with
  | Some resolve =>
      info ← resolve search_query;
      resolved_ips ← add_resolved info "ip";
      resolved_macs ← add_resolved info "mac";
      resolved_hostnames ← add_resolved info "hostname";
      nested ←
        (if info_truthy (info_get info "dhcpv4") then
           match info_get info "dhcpv4" with
           | IDict dhcp =>
               mret
                 (add_truthy (py_or (py_get dhcp "ip") (py_get dhcp "address")) [],
                  add_truthy (py_get dhcp "mac") [],
                  add_truthy (py_or (py_get dhcp "hostname")
                                    (py_get dhcp "client-hostname")) [])
           | IVal _ => Raise (AttributeError "object has no attribute 'get'")
           end
         else mret ([], [], []));
      mapM lower_of
        (List.filter truthy
           ([search_query]
            ++ (nested.1.1 ++ resolved_ips)
            ++ (nested.1.2 ++ resolved_macs)
            ++ (nested.2 ++ resolved_hostnames)))
  | None => mapM lower_of (List.filter truthy [search_query])
  end.

(** [_get_dummy_data] *)
Definition _get_dummy_data : Result :=
  {| arp := [ <["ip" := PStr "192.168.1.1"]>
               (<["mac" := PStr "aa:bb:cc:dd:ee:ff"]>
               (<["intf" := PStr "em0"]>
               (<["manufacturer" := PStr "TestCorp"]>
               (<["dhcp_status" := PStr "Online"]> ∅)))) ];
     ndp := [ <["ip" := PStr "fe80::1"]>
               (<["mac" := PStr "aa:bb:cc:dd:ee:ff"]>
               (<["intf" := PStr "em0"]>
               (<["manufacturer" := PStr "TestCorp"]>
               (<["dhcp_status" := PStr "Online"]> ∅)))) ];
     status := "success" |}.

Section Execute.
(** [oui_lookup.lookup]: the vendor table of [opnsense_mcp.utils.oui_lookup],
    from a MAC address to a manufacturer name or [None]. *)
Variable oui_lookup : pyval → pyval.
Variables validate_int validate_bool : pyval → option pyval.

(** [_fill_manufacturer_and_dhcp] *)
Definition _fill_manufacturer_and_dhcp
    (entry : gmap string pyval)
    (dhcp_ip_map : list (pyval * gmap string pyval))
    (dhcp_mac_map : gmap string (gmap string pyval))
  : exc (gmap string pyval) :=
  let entry :=
    if negb (truthy (py_get entry "manufacturer")) then
      let mac := py_get entry "mac" in
      if truthy mac
      then <["manufacturer" := py_or (oui_lookup mac) (PStr "")]> entry
      else entry
    else entry in
  let ip := py_get entry "ip" in
  mac ← (if truthy (py_get entry "mac")
         then Some <$> lower_of (py_get_or entry "mac" (PStr ""))
         else mret None);
  let dhcp_info :=
    match (if truthy ip then ip_map_lookup dhcp_ip_map ip else None) with
    | Some lease => Some lease
    | None =>
        match mac with
        | Some m => if truthy (PStr m) then dhcp_mac_map !! m else None
        | None => None
        end
    end in
  match dhcp_info with
  | Some info =>
      if dict_truthy info then
        let hostname :=
          py_or (py_get info "hostname") (py_get info "client-hostname") in
        let entry :=
          if negb (truthy (py_get entry "hostname")) && truthy hostname
          then <["hostname" := hostname]> entry
          else entry in
        mret (<["dhcp_status" :=
                 PStr (if truthy (py_get info "online")
                       then "Online" else "Offline")]> entry)
      else mret entry
  | None => mret entry
  end.

(** The comprehension that builds [arp_entries] and [ndp_entries]. *)
Definition enrich
    (maps : list (pyval * gmap string pyval) * gmap string (gmap string pyval))
    (rows : list (gmap string pyval))
  : exc (list (gmap string pyval)) :=
  mapM (λ entry,
          dumped ← ARPEntry_model_dump validate_int validate_bool entry;
          _fill_manufacturer_and_dhcp dumped maps.1 maps.2) rows.

(** The unfiltered tables, as built at lines 79-97 and again at lines
    172-185. *)
Definition full_tables (client : Client)
    (maps : list (pyval * gmap string pyval) * gmap string (gmap string pyval))
  : exc (list (gmap string pyval) * list (gmap string pyval)) :=
  arp_data ← get_arp_table client;
  ndp_data ← get_ndp_table client;
  arp_entries ← enrich maps arp_data;
  ndp_entries ← enrich maps ndp_data;
  mret (arp_entries, ndp_entries).

(** The standalone filters (lines 187-211). *)
Definition mac_matches (mac_filter : string) (entry : gmap string pyval)
  : exc bool :=
  m ← lower_of (py_get_or entry "mac" (PStr ""));
  mret (String.eqb m mac_filter).

Definition apply_filters (params : gmap string pyval)
    (tables : list (gmap string pyval) * list (gmap string pyval))
  : exc (list (gmap string pyval) * list (gmap string pyval)) :=
  let mac_filter := py_get params "mac" in
  let ip_filter := py_get params "ip" in
  let ipv6_filter := py_get params "ipv6" in
  tables ←
    (if truthy mac_filter then
       mac_filter ← lower_of mac_filter;
       arp_entries ← filterM (mac_matches mac_filter) tables.1;
       ndp_entries ← filterM (mac_matches mac_filter) tables.2;
       mret (arp_entries, ndp_entries)
     else mret tables);
  let arp_entries :=
    if truthy ip_filter
    then List.filter (λ entry, py_eqb (py_get_or entry "ip" (PStr "")) ip_filter)
           tables.1
    else tables.1 in
  let ndp_entries :=
    if truthy ipv6_filter
    then List.filter
           (λ entry, py_eqb (py_get_or entry "ip" (PStr "")) ipv6_filter)
           tables.2
    else tables.2 in
  mret (arp_entries, ndp_entries).

Definition success
    (tables : list (gmap string pyval) * list (gmap string pyval)) : Result :=
  {| arp := tables.1; ndp := tables.2; status := "success" |}.

(** The body of the [try] of [execute], for a client that is not [None]. *)
Definition execute_try (client : Client) (params : gmap string pyval)
  : exc Result :=
  dhcpv4_leases ← get_dhcpv4_leases client;
  dhcpv6_leases ← get_dhcpv6_leases client;
  maps ← add_leases ([], ∅) dhcpv4_leases;
  maps ← add_leases maps dhcpv6_leases;
  let search_query := py_get params "search" in
  if truthy search_query then
    stripped ← strip_of search_query;
    if String.eqb stripped "*" || negb (truthy (PStr stripped)) then
      success <$> full_tables client maps
    else
      all_queries ← resolve_queries client search_query;
      arp_data ← get_arp_table client;
      ndp_data ← get_ndp_table client;
      arp_entries ← enrich maps (List.filter (match_any all_queries) arp_data);
      ndp_entries ← enrich maps (List.filter (match_any all_queries) ndp_data);
      mret (success (arp_entries, ndp_entries))
  else
    tables ← full_tables client maps;
    success <$> apply_filters params tables.

(** [ARPTool.execute]; [client] is [self.client]. Every exception ends in
    the fixture. *)
Definition execute (client : option Client) (params : gmap string pyval)
  : exc Result :=
  try_except
    (match client with
     | None => mret _get_dummy_data
     | Some client => execute_try client params
     end)
    (λ _, mret _get_dummy_data).

End Execute.

End ARPTool.

(** ** [opnsense_mcp/tools/dhcp.py] *)

Module DHCPTool.

(** The dictionary that [execute] returns. The fixture has no
    ["dhcp_status"] key. *)
Record Result : Type := {
  dhcpv4 : list (gmap string pyval);
  dhcpv6 : list (gmap string pyval);
  status : string;
  dhcp_status : option string
}.

(** [_normalize_lease_entry] *)
Definition _normalize_lease_entry (entry : gmap string pyval)
  : gmap string pyval :=
  match entry !! "address", entry !! "ip" with
  | Some address, None => <["ip" := address]> (delete "address" entry)
  | _, _ => entry
  end.

(** [{entry.get(k) for entry in table if entry.get(k)}] *)
Definition neighbor_set (k : string) (table : list (gmap string pyval))
  : list pyval :=
  List.filter truthy (List.map (λ entry, py_get entry k) table).

(** The status computed in the body of each of the two loops (lines 66-74
    and 85-93) from the normalized lease and the two sets of one neighbour
    table. *)
Definition actual_status (normalized : gmap string pyval)
    (ips macs : list pyval) : string :=
  let ip := py_get normalized "ip" in
  let mac := py_get normalized "mac" in
  let is_in_table := py_in ip ips || py_in mac macs in
  let dhcp_status := py_get_or normalized "online" (PBool false) in
  if is_in_table then "Online"
  else if truthy dhcp_status then "Online" else "Offline".

Section Execute.
Variable validate_bool : pyval → option pyval.

(** One iteration of either loop. *)
Definition process_lease (ips macs : list pyval) (entry : gmap string pyval)
  : exc (gmap string pyval) :=
  let normalized := _normalize_lease_entry entry in
  let normalized :=
    <["actual_status" := PStr (actual_status normalized ips macs)]>
      normalized in
  DHCPLease_model_dump validate_bool normalized.

(** The body of the [try] of [execute], for a client that is not [None].
    The tables are sequences, so the branch for leases that are [None] is
    never taken. *)
Definition execute_try (client : Client) (params : gmap string pyval)
  : exc Result :=
  leases_v4 ← get_dhcpv4_leases client;
  leases_v6 ← get_dhcpv6_leases client;
  arp_data ← get_arp_table client;
  ndp_data ← get_ndp_table client;
  let arp_ips := neighbor_set "ip" arp_data in
  let arp_macs := neighbor_set "mac" arp_data in
  let ndp_ips := neighbor_set "ip" ndp_data in
  let ndp_macs := neighbor_set "mac" ndp_data in
  lease_entries_v4 ← mapM (process_lease arp_ips arp_macs) leases_v4;
  lease_entries_v6 ← mapM (process_lease ndp_ips ndp_macs) leases_v6;
  let dhcp_status :=
    match lease_entries_v4, lease_entries_v6 with
    | [], [] =>
        "No DHCP leases found. Check DHCP server status, configuration, and API permissions."
    | _, _ => "OK"
    end in
  mret {| dhcpv4 := lease_entries_v4; dhcpv6 := lease_entries_v6;
          status := "success"; dhcp_status := Some dhcp_status |}.

(** [_get_dummy_data] *)
Definition _get_dummy_data : Result :=
  {| dhcpv4 := [ <["ip" := PStr "192.168.1.100"]>
                  (<["mac" := PStr "00:11:22:33:44:55"]>
                  (<["hostname" := PStr "dummy-client"]>
                  (<["start" := PStr "2025-01-01T00:00:00"]>
                  (<["end" := PStr "2025-01-01T12:00:00"]>
                  (<["online" := PBool true]>
                  (<["actual_status" := PStr "Online"]>
                  (<["lease_type" := PStr "dynamic"]>
                  (<["description" := PStr "Dummy lease entry"]> ∅)))))))) ];
     dhcpv6 := [ <["ip" := PStr "2001:db8::100"]>
                  (<["mac" := PStr "00:11:22:33:44:66"]>
                  (<["hostname" := PStr "dummy6-client"]>
                  (<["start" := PStr "2025-01-01T00:00:00"]>
                  (<["end" := PStr "2025-01-01T12:00:00"]>
                  (<["online" := PBool true]>
                  (<["actual_status" := PStr "Online"]>
                  (<["lease_type" := PStr "dynamic"]>
                  (<["description" := PStr "Dummy DHCPv6 lease entry"]>
                   ∅)))))))) ];
     status := "dummy";
     dhcp_status := None |}.

(** [DHCPTool.execute]; [client] is [self.client]. *)
Definition execute (client : option Client) (params : gmap string pyval)
  : exc Result :=
  try_except
    (match client with
     | None => mret _get_dummy_data
     | Some client => execute_try client params
     end)
    (λ e, mret {| dhcpv4 := []; dhcpv6 := []; status := "error";
                  dhcp_status :=
                    Some ("Error retrieving DHCP leases: " +:+ exn_str e) |}).

End Execute.

End DHCPTool.

(** ** [opnsense_mcp/tools/system.py] *)

Module SystemTool.

(** [SystemTool.execute]; [client] is [self.client]. The test on the client
    guards a log line only: the call of [get_system_status] follows in
    either case, and on [None] it is an attribute access on [None]. *)
Definition execute (client : option Client) (params : gmap string pyval)
  : exc (gmap string pyval) :=
  try_except
    (result ←
       match client with
       | None =>
           Raise (AttributeError
             "'NoneType' object has no attribute 'get_system_status'")
       | Some client => get_system_status client
       end;
     mret result)
    (λ e, mret (<["error" := PStr ("Failed to get system status: "
                                    +:+ exn_str e)]>
               (<["status" := PStr "error"]> ∅))).

End SystemTool.

(** ** [opnsense_mcp/server_sse.py]: request bodies *)

Module Json.

(** A value of a decoded JSON object: a scalar or a nested object. *)
Inductive argval : Type :=
  | AVal (v : pyval)
  | AObj (d : gmap string pyval).

Definition arg_truthy (v : argval) : bool :=
  match v with
  | AVal x => truthy x
  | AObj d => negb (bool_decide (d = ∅))
  end.

Definition arg_or (a b : argval) : argval := if arg_truthy a then a else b.

Definition arg_get (d : gmap string argval) (k : string) : argval :=
  default (AVal PNone) (d !! k).

Definition arg_get_or (d : gmap string argval) (k : string) (dflt : argval)
  : argval :=
  default dflt (d !! k).

(** [v == "s"] for a string literal *)
Definition arg_is (v : argval) (s : string) : bool :=
  match v with
  | AVal x => py_eqb x (PStr s)
  | AObj _ => false
  end.

End Json.
Export Json.

(** ** [opnsense_mcp/server_sse.py]: the dispatcher *)

Module Dispatcher.

Record JsonRpcRequest : Type := {
  id : option string;
  method : string;
  params : option (gmap string argval)
}.

(** What a JSON-RPC answer carries under ["result"]. *)
Inductive RpcResult : Type :=
  | Initialized (protocolVersion : argval)
  | Tools
  | Content (text : string).

(** The answer of [jsonrpc_endpoint]: ["result"], or ["error"] with its
    ["code"] and ["message"]. *)
Inductive RpcResponse : Type :=
  | Result (msg_id : option string) (result : RpcResult)
  | Error (msg_id : option string) (code : Z) (message : string).

(** The HTTP status with which the framework answers a handler. *)
Definition http_status {A} (r : exc A) : Z :=
  match r with
  | Ok _ => 200
  | Raise (HTTPException status_code _) => status_code
  | Raise _ => 500
  end.

Section Endpoints.
(** [tools name arguments]: the text [str(result)] of the tool registered
    under [name] run on [arguments], or the exception that escapes it. The
    nine tool objects are module globals built at start-up. *)
Variable tools : string → argval → exc string.
(** [str(d)] for a dictionary. *)
Variable dict_str : gmap string pyval → string.

Definition arg_str (v : argval) : string :=
  match v with
  | AVal x => py_str x
  | AObj d => dict_str d
  end.

(** [call_tool] *)
Definition call_tool (tool_name : argval) (arguments : argval) : exc string :=
  try_except
    (if arg_is tool_name "arp" then tools "arp" arguments
     else if arg_is tool_name "dhcp" then tools "dhcp" arguments
     else if arg_is tool_name "get_logs" then tools "get_logs" arguments
     else if arg_is tool_name "lldp" then tools "lldp" arguments
     else if arg_is tool_name "system" then tools "system" arguments
     else if arg_is tool_name "fw_rules" then tools "fw_rules" arguments
     else if arg_is tool_name "mkfw_rule" then tools "mkfw_rule" arguments
     else if arg_is tool_name "rmfw_rule" then tools "rmfw_rule" arguments
     else if arg_is tool_name "interface_list"
          then tools "interface_list" arguments
     else Raise (HTTPException 404 ("Tool not found: " +:+ arg_str tool_name)))
    (λ e, Raise (HTTPException 500 ("Error executing tool: " +:+ exn_str e))).

(** [jsonrpc_endpoint] *)
Definition jsonrpc_endpoint (request : JsonRpcRequest) : RpcResponse :=
  let method := method request in
  let params := default ∅ (params request) in
  let msg_id := id request in
  if String.eqb method "initialize" then
    let protocol_version := arg_get params "protocolVersion" in
    let protocol_version :=
      if negb (arg_truthy protocol_version)
         || arg_is protocol_version "undefined"
      then AVal (PStr "2024-11-05") else protocol_version in
    Result msg_id (Initialized protocol_version)
  else if String.eqb method "tools/list" || String.eqb method "ListOfferings"
  then Result msg_id Tools
  else if String.eqb method "tools/call" || String.eqb method "tool/call" then
    let tool_name := arg_or (arg_get params "name") (arg_get params "tool") in
    let arguments :=
      arg_or (arg_or (arg_get params "arguments") (arg_get params "args"))
             (AObj ∅) in
    if negb (arg_truthy tool_name) then
      Error msg_id (-32602) "Invalid params: tool name is required"
    else
      match call_tool tool_name arguments with
      | Ok result => Result msg_id (Content result)
      | Raise (HTTPException status_code detail) =>
          Error msg_id (if status_code =? 404 then -32601 else -32603) detail
      | Raise e => Error msg_id (-32603) ("Internal error: " +:+ exn_str e)
      end
  else Error msg_id (-32601) ("Method not found: " +:+ method).

End Endpoints.

End Dispatcher.

(** ** [opnsense_mcp/server_sse.py]: the push channel *)

Module Broker.

(** An item that [event_generator] yields and [send_to_client] enqueues:
    the keys ["event"], ["id"] and ["data"]. *)
Record Event : Type := {
  event : argval;
  id : argval;
  data : string
}.

(** The module-level state. Every [asyncio.Queue()] ever created is an
    object of [queues], named by its address; its content is the list of
    items not yet taken, oldest first, where [None] is the signal to close.
    [client_connections] maps a client id to the address of its queue. *)
Record State : Type := {
  queues : gmap nat (list (option Event));
  client_connections : gmap string nat
}.

(** A request body: a dictionary object, with the address [id(data)]. *)
Record Body : Type := {
  address : Z;
  fields : gmap string argval
}.

(** Where a suspended [event_generator] stands. *)
Inductive Position : Type :=
  | Created                (* not started *)
  | AtConnected            (* at the first [yield] *)
  | AtGet (queue : nat)    (* inside [await queue.get()] on that queue *)
  | AtYield                (* at [yield event] in the loop *)
  | Finished.

Record Generator : Type := {
  client_id : string;
  position : Position
}.

(** What resuming the generator gives its consumer. [Pending]: the
    generator is suspended in [get()] on an empty queue. *)
Inductive Outcome : Type :=
  | Yield (e : Event)
  | Pending
  | StopAsyncIteration
  | Raised (e : pyexn).

Section Channel.
(** [json.dumps] *)
Variable json_dumps : argval → string.

(** [queue.put(item)]; the queues are unbounded. *)
Definition put (queue : nat) (item : option Event) (st : State) : State :=
  {| queues := <[queue := (default [] (queues st !! queue) ++ [item])%list]>
                 (queues st);
     client_connections := client_connections st |}.

(** The event that [send_to_client] builds from the request body. *)
Definition event_of (data : Body) : Event :=
  {| event := arg_get_or (fields data) "event" (AVal (PStr "message"));
     id := arg_get_or (fields data) "id"
             (AVal (PStr (py_str (PInt (address data)))));
     data := json_dumps (arg_get_or (fields data) "data" (AObj ∅)) |}.

(** [send_to_client]: the answer, and the state it leaves. *)
Definition send_to_client (client_id : string) (data : Body) (st : State)
  : exc string * State :=
  match client_connections st !! client_id with
  | None =>
      (Raise (HTTPException 404 ("Client " +:+ client_id +:+ " not connected")),
       st)
  | Some queue => (Ok "sent", put queue (Some (event_of data)) st)
  end.

(** The first item of the stream. *)
Definition connected (client_id : string) : Event :=
  {| event := AVal (PStr "connected");
     id := AVal (PStr client_id);
     data := json_dumps (AObj (<["status" := PStr "connected"]>
                              (<["client_id" := PStr client_id]> ∅))) |}.

(** The [finally] clause. *)
Definition cleanup (client_id : string) (st : State) : State :=
  {| queues := queues st;
     client_connections := delete client_id (client_connections st) |}.

(** [client_connections[client_id] = asyncio.Queue()] *)
Definition register (client_id : string) (st : State) : State :=
  let queue := fresh (dom (queues st)) in
  {| queues := <[queue := []]> (queues st);
     client_connections := <[client_id := queue]> (client_connections st) |}.

(** [await queue.get()] and what follows it in the loop body. *)
Definition get (g : Generator) (queue : nat) (st : State)
  : Outcome * Generator * State :=
  match queues st !! queue with
  | Some (item :: rest) =>
      let st := {| queues := <[queue := rest]> (queues st);
                   client_connections := client_connections st |} in
      match item with
      | Some e =>
          (Yield e, {| client_id := client_id g; position := AtYield |}, st)
      | None =>
          (StopAsyncIteration,
           {| client_id := client_id g; position := Finished |},
           cleanup (client_id g) st)
      end
  | _ => (Pending, {| client_id := client_id g; position := AtGet queue |}, st)
  end.

(** The head of the loop: [client_connections[client_id]] is looked up
    afresh on every iteration. *)
Definition loop (g : Generator) (st : State) : Outcome * Generator * State :=
  match client_connections st !! client_id g with
  | Some queue => get g queue st
  | None =>
      (Raised (KeyError (client_id g)),
       {| client_id := client_id g; position := Finished |},
       cleanup (client_id g) st)
  end.

(** Resuming [event_generator] until it yields, suspends or ends. *)
Definition resume (g : Generator) (st : State) : Outcome * Generator * State :=
  match position g with
  | Created =>
      (Yield (connected (client_id g)),
       {| client_id := client_id g; position := AtConnected |}, st)
  | AtConnected => loop g (register (client_id g) st)
  | AtGet queue => get g queue st
  | AtYield => loop g st
  | Finished => (StopAsyncIteration, g, st)
  end.

(** The consumer goes away: the task is cancelled at its suspension
    point, and the [finally] clause runs if the body had been entered. *)
Definition cancel (g : Generator) (st : State) : Generator * State :=
  match position g with
  | Created | Finished =>
      ({| client_id := client_id g; position := Finished |}, st)
  | _ =>
      ({| client_id := client_id g; position := Finished |},
       cleanup (client_id g) st)
  end.

(** [sse_endpoint]: the generator of a new connection. *)
Definition sse_endpoint (client_id : string) : Generator :=
  {| client_id := client_id; position := Created |}.

(** A schedule of requests against one open stream: the consumer asks for
    the next item, or somebody posts to [/send/{client_id}]. *)
Inductive Action : Type :=
  | Next
  | Send (client_id : string) (data : Body).

(** The items the consumer receives along a schedule, in order. *)
Fixpoint run (schedule : list Action) (g : Generator) (st : State)
  : list Event * Generator * State :=
  match schedule with
  | [] => ([], g, st)
  | Next :: rest =>
      let '(out, g', st') := resume g st in
      let '(evs, g'', st'') := run rest g' st' in
      (match out with Yield e => e :: evs | _ => evs end, g'', st'')
  | Send c d :: rest => run rest g (send_to_client c d st).2
  end.

End Channel.

End Broker.

(* ===================================================================== *)
(** * Part II: properties *)
(* ===================================================================== *)

(** ** The error monad *)

Lemma try_except_returns {A} (body : exc A) (handler : pyexn → exc A) :
  (∀ e, ∃ a, handler e = Ok a) → ∃ a, try_except body handler = Ok a.
Proof.
  intros Hh. destruct body as [a|e]; simpl; [eauto | apply Hh].
Qed.

Lemma bind_Ok {A B} (m : exc A) (f : A → exc B) (b : B) :
  m ≫= f = Ok b ↔ ∃ a, m = Ok a ∧ f a = Ok b.
Proof.
  destruct m as [a|e]; simpl; split.
  - eauto.
  - intros (a' & [= ->] & H). exact H.
  - discriminate.
  - intros (a' & [=] & _).
Qed.

Lemma fmap_Ok {A B} (m : exc A) (f : A → B) (b : B) :
  f <$> m = Ok b ↔ ∃ a, m = Ok a ∧ f a = b.
Proof.
  destruct m as [a|e]; simpl; split.
  - intros [= <-]. eauto.
  - intros (a' & [= ->] & <-). reflexivity.
  - discriminate.
  - intros (a' & [=] & _).
Qed.

Lemma mapM_Ok {A B} (f : A → exc B) (l : list A) (k : list B) :
  mapM f l = Ok k ↔ Forall2 (λ x y, f x = Ok y) l k.
Proof.
  revert k. induction l as [|x l IH]; intros k; simpl.
  - split.
    + intros [= <-]. constructor.
    + inversion 1. reflexivity.
  - split.
    + intros H. apply bind_Ok in H as (y & Hy & H).
      apply bind_Ok in H as (k' & Hk' & [= <-]).
      constructor; [exact Hy | by apply IH].
    + inversion 1 as [|? y ? k' Hy Hk']; subst.
      apply IH in Hk'. rewrite Hy. simpl. rewrite Hk'. reflexivity.
Qed.

Lemma validated_Ok {A} (o : option A) (a : A) :
  validated o = Ok a ↔ o = Some a.
Proof. destruct o; simpl; split; congruence. Qed.

(** ** The DHCP tool: reconciled lease status *)

Module DHCPProps.
Import DHCPTool.

(** The lease is seen in a neighbour table: its address is one of the
    addresses of the table, or its MAC one of the MACs. *)
Definition in_table (table : list (gmap string pyval))
    (lease : gmap string pyval) : bool :=
  py_in (py_get lease "ip") (neighbor_set "ip" table)
  || py_in (py_get lease "mac") (neighbor_set "mac" table).

(** The raw flag of the lease. *)
Definition online (lease : gmap string pyval) : bool :=
  truthy (py_get_or lease "online" (PBool false)).

Lemma actual_status_Online lease table :
  actual_status lease (neighbor_set "ip" table) (neighbor_set "mac" table)
    = "Online"
  ↔ in_table table lease = true ∨ online lease = true.
Proof.
  unfold actual_status, in_table, online.
  destruct (_ || _); [naive_solver |].
  destruct (truthy _); [naive_solver |].
  split; [discriminate | intros [|]; discriminate].
Qed.

Lemma actual_status_Offline lease table :
  actual_status lease (neighbor_set "ip" table) (neighbor_set "mac" table)
    = "Offline"
  ↔ ¬ (in_table table lease = true ∨ online lease = true).
Proof.
  rewrite <- actual_status_Online. unfold actual_status.
  destruct (_ || _); [naive_solver |].
  destruct (truthy _); naive_solver.
Qed.

Lemma process_lease_status validate_bool ips macs entry out :
  process_lease validate_bool ips macs entry = Ok out →
  out !! "actual_status"
  = Some (PStr (actual_status (_normalize_lease_entry entry) ips macs)).
Proof.
  unfold process_lease, DHCPLease_model_dump. rewrite validated_Ok.
  intros H. unfold required, optional in H.
  rewrite lookup_insert_eq in H. simpl in H.
  repeat (apply bind_Some in H as (? & _ & H)).
  injection H as <-. by simplify_map_eq.
Qed.

(** A lease that the model accepts, seen in the ARP table and flagged
    offline by the server, and a client that serves it. *)
Definition stale_lease : gmap string pyval :=
  <["address" := PStr "10.0.0.5"]>
  (<["mac" := PStr "aa:bb:cc:00:11:22"]>
  (<["hostname" := PStr "trogdor-pc"]>
  (<["online" := PBool false]> ∅))).

Definition lan_arp_table : list (gmap string pyval) :=
  [ <["ip" := PStr "10.0.0.5"]>
    (<["mac" := PStr "aa:bb:cc:00:11:22"]>
    (<["intf" := PStr "em0"]> ∅)) ].

Definition lan_client : Client :=
  {| get_arp_table := Ok lan_arp_table;
     get_ndp_table := Ok [];
     get_dhcpv4_leases := Ok [stale_lease];
     get_dhcpv6_leases := Ok [stale_lease];
     resolve_host_info := None;
     get_system_status := Ok ∅ |}.

(** The run at [lan_client]: seen in the ARP table, the DHCPv4 lease is
    Online although its flag is false; the DHCPv6 lease, with the same flag
    and an empty NDP table, is Offline. *)
Example stale_lease_statuses :
  (λ r, (((λ e, e !! "actual_status") <$> dhcpv4 r),
         ((λ e, e !! "actual_status") <$> dhcpv6 r)))
    <$> execute strict_bool (Some lan_client) ∅
  = Ok ([Some (PStr "Online")], [Some (PStr "Offline")]).
Proof. vm_compute. reflexivity. Qed.

(** C9. [DHCPTool.execute] does not read its arguments: two calls against
    the same collaborator return the same result whatever the argument
    dictionaries are, so the [search] parameter that the tool list
    declares for [dhcp] has no effect. *)
Theorem C9_params_ignored validate_bool (client : option Client)
    (p1 p2 : gmap string pyval) :
  execute validate_bool client p1 = execute validate_bool client p2.
Proof. destruct client; reflexivity. Qed.

End DHCPProps.

(** ** The ARP tool: tables, search and filters *)

Module ARPProps.
Import ARPTool.

(** The rows of a table are returned, in order: entry by entry, the
    address, the MAC and the interface are those of the row. *)
Definition same_host (row out : gmap string pyval) : Prop :=
  out !! "ip" = row !! "ip" ∧ out !! "mac" = row !! "mac"
  ∧ out !! "intf" = row !! "intf".

Definition is_str (v : option pyval) : Prop := ∃ s, v = Some (PStr s).

Lemma validate_str_Some v w : validate_str v = Some w → ∃ s, v = PStr s ∧ w = PStr s.
Proof. destruct v; simpl; intros [= <-]. eauto. Qed.

Lemma required_str_Some row k w :
  required validate_str row k = Some w → row !! k = Some w ∧ is_str (Some w).
Proof.
  unfold required. intros (v & Hv & H)%bind_Some.
  apply validate_str_Some in H as (s & -> & ->). split; [done | by exists s].
Qed.

(** *** Substrings *)




(** *** Case

    [lower] is [str.lower] on text of the ASCII range; the statements on
    case are about such text. *)















(** *** The token set of a search *)

Definition str_or_none (v : pyval) : Prop := v = PNone ∨ ∃ s, v = PStr s.

Lemma mapM_lower_of (l : list pyval) :
  Forall str_or_none l →
  ∃ tokens, mapM lower_of (List.filter truthy l) = Ok tokens
            ∧ ∀ s, s ≠ "" → In (PStr s) l → In (lower s) tokens.
Proof.
  induction 1 as [|v l Hv _ (tokens & E & IH)]; simpl.
  - exists []. split; [done | tauto].
  - destruct Hv as [-> | [s ->]]; simpl.
    + exists tokens. split; [done |]. intros s Hs [[=] | H]. by apply IH.
    + destruct (String.eqb_spec s "") as [-> | Hs]; simpl.
      * exists tokens. split; [done |]. intros s Hs [[= <-] | H];
          [done | by apply IH].
      * rewrite E. simpl. exists (lower s :: tokens). split; [done |].
        intros s' Hs' [[= <-] | H]; [by left | right; by apply IH].
Qed.

Lemma add_truthy_str v l :
  str_or_none v → Forall str_or_none l → Forall str_or_none (add_truthy v l).
Proof. unfold add_truthy. destruct (truthy v); [by constructor | done]. Qed.

Lemma py_or_str a b : str_or_none a → str_or_none b → str_or_none (py_or a b).
Proof. unfold py_or. by destruct (truthy a). Qed.

Definition info_str_or_none (v : infoval) : Prop :=
  ∃ x, v = IVal x ∧ str_or_none x.

Lemma add_resolved_Ok info k :
  info_str_or_none (info_get info k) →
  ∃ l, add_resolved info k = Ok l ∧ Forall str_or_none l
       ∧ ∀ s, s ≠ "" → info_get info k = IVal (PStr s) → In (PStr s) l.
Proof.
  intros (x & E & Hx). unfold add_resolved. rewrite E. simpl.
  destruct (truthy x) eqn:Ht; simpl.
  - exists [x]. split; [done |]. split; [by constructor |].
    intros s _ [= ->]. by left.
  - exists []. split; [done |]. split; [constructor |].
    intros s Hs [= ->]. simpl in Ht.
    apply String.eqb_neq in Hs. by rewrite Hs in Ht.
Qed.

Lemma match_any_intro tokens entry q :
  In q tokens →
  contains q (lower (py_str (py_get_or entry "ip" (PStr "")))) = true
  ∨ contains q (lower (py_str (py_get_or entry "mac" (PStr "")))) = true
  ∨ contains q (lower (py_str (py_get_or entry "hostname" (PStr "")))) = true →
  match_any tokens entry = true.
Proof.
  intros Hq Hc. unfold match_any. apply existsb_exists. exists q.
  split; [done |]. rewrite !orb_true_iff. tauto.
Qed.

(** Lease tables whose MACs are strings, where present, give the two
    DHCP maps. *)
Definition mac_ok (lease : gmap string pyval) : Prop :=
  str_or_none (py_get lease "mac").

Lemma add_leases_Ok leases maps :
  Forall mac_ok leases → ∃ maps', add_leases maps leases = Ok maps'.
Proof.
  intros H. revert maps. induction H as [|lease leases Hl _ IH]; intros maps.
  - by eexists.
  - simpl. unfold add_lease.
    destruct Hl as [-> | [m ->]]; simpl; [apply IH |].
    destruct (negb (String.eqb m "")); simpl; apply IH.
Qed.

(** *** The lease and the neighbour entry of the search example *)

Definition trogdor_lease : gmap string pyval :=
  <["hostname" := PStr "trogdor-pc"]>
  (<["ip" := PStr "10.0.0.5"]>
  (<["mac" := PStr "aa:bb:cc:00:11:22"]> ∅)).

(** A neighbour entry of that host: its address and MAC, and no name. *)
Definition nameless_entry (entry : gmap string pyval) : Prop :=
  entry !! "ip" = Some (PStr "10.0.0.5")
  ∧ entry !! "mac" = Some (PStr "aa:bb:cc:00:11:22")
  ∧ entry !! "hostname" = Some PNone.

(** What [resolve_host_info] returns identifies the lease: its address or
    its MAC, or the lease itself under ["dhcpv4"]; the identifiers that it
    gives besides are strings. *)
Definition identifies_lease (info : gmap string infoval) : Prop :=
  info_str_or_none (info_get info "ip")
  ∧ info_str_or_none (info_get info "mac")
  ∧ info_str_or_none (info_get info "hostname")
  ∧ (info_get info "dhcpv4" = IVal PNone
     ∨ info_get info "dhcpv4" = IDict trogdor_lease)
  ∧ (info_get info "ip" = IVal (PStr "10.0.0.5")
     ∨ info_get info "mac" = IVal (PStr "aa:bb:cc:00:11:22")
     ∨ info_get info "dhcpv4" = IDict trogdor_lease).

Lemma resolve_queries_identified client resolve info q :
  resolve_host_info client = Some resolve →
  resolve (PStr q) = Ok info →
  identifies_lease info →
  ∃ tokens, resolve_queries client (PStr q) = Ok tokens
            ∧ (In "10.0.0.5" tokens ∨ In "aa:bb:cc:00:11:22" tokens).
Proof.
  intros Hr Hi (Hip & Hmac & Hhost & Hd & Hid).
  unfold resolve_queries. rewrite Hr, Hi. simpl.
  destruct (add_resolved_Ok info "ip" Hip) as (ips & -> & Fips & Iips).
  destruct (add_resolved_Ok info "mac" Hmac) as (macs & -> & Fmacs & Imacs).
  destruct (add_resolved_Ok info "hostname" Hhost) as (hosts & -> & Fhosts & _).
  simpl.
  assert (Hn : ∃ nested : list pyval * list pyval * list pyval,
    (if info_truthy (info_get info "dhcpv4") then
       match info_get info "dhcpv4" with
       | IDict dhcp =>
           mret
             (add_truthy (py_or (py_get dhcp "ip") (py_get dhcp "address")) [],
              add_truthy (py_get dhcp "mac") [],
              add_truthy (py_or (py_get dhcp "hostname")
                                (py_get dhcp "client-hostname")) [])
       | IVal _ => Raise (AttributeError "object has no attribute 'get'")
       end
     else mret ([], [], [])) = Ok nested
    ∧ Forall str_or_none nested.1.1 ∧ Forall str_or_none nested.1.2
    ∧ Forall str_or_none nested.2
    ∧ (info_get info "dhcpv4" = IDict trogdor_lease →
       In (PStr "10.0.0.5") nested.1.1)).
  { destruct Hd as [-> | ->].
    - exists ([], [], []). simpl. repeat split; try constructor. discriminate.
    - exists ([PStr "10.0.0.5"], [PStr "aa:bb:cc:00:11:22"],
              [PStr "trogdor-pc"]).
      split; [vm_compute; reflexivity |].
      simpl. split; [| split; [| split]];
        [constructor; [right; by eexists | constructor] ..
        | intros _; by left]. }
  destruct Hn as (nested & -> & F1 & F2 & F3 & Inested). simpl.
  destruct (mapM_lower_of
              ([PStr q] ++ (nested.1.1 ++ ips) ++ (nested.1.2 ++ macs)
               ++ (nested.2 ++ hosts))%list) as (tokens & E & Htok).
  { apply Forall_app. split; [constructor; [right; by eexists | constructor] |].
    repeat (apply Forall_app; split); done. }
  simpl in E. exists tokens. split; [exact E |].
  destruct Hid as [H | [H | H]].
  - left. apply (Htok "10.0.0.5"); [done |]. apply Iips in H; [| done].
    rewrite !in_app_iff. tauto.
  - right. apply (Htok "aa:bb:cc:00:11:22"); [done |].
    apply Imacs in H; [| done]. rewrite !in_app_iff. tauto.
  - left. apply (Htok "10.0.0.5"); [done |]. apply Inested in H.
    rewrite !in_app_iff. tauto.
Qed.

Lemma lower_nonempty s : s ≠ "" → lower s ≠ "".
Proof. by destruct s. Qed.





(** *** Two hosts of one vendor prefix *)

Definition two_hosts : Client :=
  {| get_arp_table :=
       Ok [ <["ip" := PStr "192.168.1.10"]>
            (<["mac" := PStr "aa:bb:cc:dd:ee:ff"]>
            (<["intf" := PStr "em0"]> ∅));
            <["ip" := PStr "192.168.1.11"]>
            (<["mac" := PStr "aa:bb:00:00:00:01"]>
            (<["intf" := PStr "em0"]> ∅)) ];
     get_ndp_table := Ok [];
     get_dhcpv4_leases := Ok [];
     get_dhcpv6_leases := Ok [];
     resolve_host_info := None;
     get_system_status := Ok ∅ |}.

Section Enrichment.
Variable oui_lookup : pyval → pyval.
Variables validate_int validate_bool : pyval → option pyval.

Lemma ARPEntry_model_dump_Ok row d :
  ARPEntry_model_dump validate_int validate_bool row = Ok d →
  same_host row d ∧ is_str (d !! "mac") ∧ is_str (d !! "ip").
Proof.
  unfold ARPEntry_model_dump. rewrite validated_Ok. intros H.
  apply bind_Some in H as (mac & Hmac%required_str_Some & H).
  apply bind_Some in H as (ip & Hip%required_str_Some & H).
  apply bind_Some in H as (intf & Hintf%required_str_Some & H).
  repeat (apply bind_Some in H as (? & _ & H)).
  destruct Hmac as [Hmac ?], Hip as [Hip ?], Hintf as [Hintf _].
  injection H as <-. unfold same_host.
  rewrite lookup_insert_eq, !(lookup_insert_ne _ "mac") by done.
  rewrite lookup_insert_eq, !(lookup_insert_ne _ "ip") by done.
  rewrite lookup_insert_eq. done.
Qed.

Lemma _fill_manufacturer_and_dhcp_Ok d ip_map mac_map :
  is_str (d !! "mac") →
  ∃ d', _fill_manufacturer_and_dhcp oui_lookup d ip_map mac_map = Ok d'
        ∧ d' !! "ip" = d !! "ip" ∧ d' !! "mac" = d !! "mac"
        ∧ d' !! "intf" = d !! "intf".
Proof.
  intros [m Hm]. unfold _fill_manufacturer_and_dhcp.
  set (d1 := if negb (truthy (py_get d "manufacturer")) then _ else d).
  assert (H1 : d1 !! "ip" = d !! "ip" ∧ d1 !! "mac" = d !! "mac"
               ∧ d1 !! "intf" = d !! "intf").
  { subst d1. destruct (negb _); [| done].
    destruct (truthy _); [| done]. by simplify_map_eq. }
  clearbody d1. destruct H1 as (Hi & Hma & Hin).
  assert (Hg : py_get d1 "mac" = PStr m) by (unfold py_get; by rewrite Hma, Hm).
  assert (Hg' : py_get_or d1 "mac" (PStr "") = PStr m)
    by (unfold py_get_or; by rewrite Hma, Hm).
  rewrite Hg, Hg'. simpl.
  assert (Hfin : ∀ dhcp_info : option (gmap string pyval),
    ∃ d', match dhcp_info with
          | Some info =>
              if dict_truthy info then
                mret (<["dhcp_status" :=
                         PStr (if truthy (py_get info "online")
                               then "Online" else "Offline")]>
                        (if negb (truthy (py_get d1 "hostname"))
                            && truthy (py_or (py_get info "hostname")
                                             (py_get info "client-hostname"))
                         then <["hostname" :=
                                 py_or (py_get info "hostname")
                                       (py_get info "client-hostname")]> d1
                         else d1))
              else mret d1
          | None => mret d1
          end = Ok d'
          ∧ d' !! "ip" = d !! "ip" ∧ d' !! "mac" = d !! "mac"
          ∧ d' !! "intf" = d !! "intf").
  { intros [info|]; [destruct (dict_truthy info) |];
      (eexists; split; [reflexivity |]); try done.
    destruct (_ && _); rewrite ?lookup_insert_ne by done; done. }
  destruct (negb (String.eqb m "")); simpl; apply Hfin.
Qed.

Lemma enrich_Ok maps rows outs :
  enrich oui_lookup validate_int validate_bool maps rows = Ok outs →
  Forall2 same_host rows outs.
Proof.
  unfold enrich. rewrite mapM_Ok. intros HF.
  eapply Forall2_impl; [exact HF |]. clear HF. simpl. intros row out H.
  apply bind_Ok in H as (d & Hd & H).
  apply ARPEntry_model_dump_Ok in Hd as (Hsame & Hmac & _).
  destruct (_fill_manufacturer_and_dhcp_Ok d maps.1 maps.2 Hmac)
    as (d' & E & Hi & Hm & Hn).
  rewrite E in H. injection H as <-.
  destruct Hsame as (? & ? & ?). repeat split; congruence.
Qed.

Lemma full_tables_Ok client maps arp_data ndp_data t :
  get_arp_table client = Ok arp_data →
  get_ndp_table client = Ok ndp_data →
  full_tables oui_lookup validate_int validate_bool client maps = Ok t →
  Forall2 same_host arp_data t.1 ∧ Forall2 same_host ndp_data t.2.
Proof.
  intros Ha Hn. unfold full_tables. rewrite Ha, Hn. simpl. intros H.
  apply bind_Ok in H as (a & Ea%enrich_Ok & H).
  apply bind_Ok in H as (n & En%enrich_Ok & [= <-]). done.
Qed.

(** The call that carries no argument at all fetches the lease tables,
    builds the two DHCP maps and returns the two neighbour tables,
    enriched. *)
Definition unfiltered (client : Client) : exc Result :=
  dhcpv4_leases ← get_dhcpv4_leases client;
  dhcpv6_leases ← get_dhcpv6_leases client;
  maps ← add_leases ([], ∅) dhcpv4_leases;
  maps ← add_leases maps dhcpv6_leases;
  success <$> full_tables oui_lookup validate_int validate_bool client maps.

Definition no_filters (params : gmap string pyval) : Prop :=
  truthy (py_get params "mac") = false
  ∧ truthy (py_get params "ip") = false
  ∧ truthy (py_get params "ipv6") = false.

Lemma apply_filters_none params tables :
  no_filters params → apply_filters params tables = Ok tables.
Proof.
  intros (Hm & Hi & H6). unfold apply_filters. rewrite Hm, Hi, H6. simpl.
  by destruct tables.
Qed.

Lemma execute_try_no_search client params :
  truthy (py_get params "search") = false → no_filters params →
  execute_try oui_lookup validate_int validate_bool client params
  = unfiltered client.
Proof.
  intros Hs Hf. unfold execute_try, unfiltered. rewrite Hs.
  destruct (get_dhcpv4_leases client) as [l4|]; [simpl | done].
  destruct (get_dhcpv6_leases client) as [l6|]; [simpl | done].
  destruct (add_leases _ l4) as [m4|]; [simpl | done].
  destruct (add_leases _ l6) as [m6|]; [simpl | done].
  destruct (full_tables _ _ _ _ _) as [t|]; [simpl | done].
  by rewrite apply_filters_none.
Qed.

Lemma execute_try_wildcard client params s :
  py_get params "search" = PStr s → s ≠ "" →
  strip s = "*" ∨ strip s = "" →
  execute_try oui_lookup validate_int validate_bool client params
  = unfiltered client.
Proof.
  intros Hs Hne Hw. unfold execute_try, unfiltered. rewrite Hs. simpl.
  apply String.eqb_neq in Hne. rewrite Hne. simpl.
  assert (String.eqb (strip s) "*" || negb (negb (String.eqb (strip s) ""))
          = true) as ->.
  { destruct Hw as [-> | ->]; reflexivity. }
  reflexivity.
Qed.

(** *** The rows that the model accepts *)

(** A row that the model of the table accepts. *)
Definition valid_row (row : gmap string pyval) : Prop :=
  ∃ d, ARPEntry_model_dump validate_int validate_bool row = Ok d.

(** The same, read off the declaration of [ARPEntry]: strings under [mac],
    [ip] and [intf]; a string, [None] or nothing under the optional text
    fields; nothing, [None], or a value that pydantic takes for an [int],
    for a [bool], under [expires] and [permanent]. *)
Definition text_or_null (v : option pyval) : Prop :=
  v = None ∨ v = Some PNone ∨ ∃ s, v = Some (PStr s).

Definition taken_or_null (validate : pyval → option pyval)
    (v : option pyval) : Prop :=
  v = None ∨ v = Some PNone ∨ ∃ x, v = Some x ∧ is_Some (validate x).

Definition declared_row (row : gmap string pyval) : Prop :=
  is_str (row !! "mac") ∧ is_str (row !! "ip") ∧ is_str (row !! "intf")
  ∧ text_or_null (row !! "manufacturer")
  ∧ text_or_null (row !! "hostname")
  ∧ taken_or_null validate_int (row !! "expires")
  ∧ taken_or_null validate_bool (row !! "permanent")
  ∧ text_or_null (row !! "type")
  ∧ text_or_null (row !! "description")
  ∧ text_or_null (row !! "dhcp_status").

Lemma required_str_is_Some row k :
  is_Some (required validate_str row k) ↔ is_str (row !! k).
Proof.
  unfold required, is_str.
  destruct (row !! k) as [[| | |x]|]; simpl; split;
    try (intros [? [=]]; fail); eauto.
Qed.

Lemma optional_is_Some validate row k :
  is_Some (optional validate row k) ↔ taken_or_null validate (row !! k).
Proof.
  unfold optional, taken_or_null.
  destruct (row !! k) as [x|]; [| split; eauto].
  destruct x; split; eauto;
    intros [[=] | [[=] | (? & [= <-] & ?)]]; done.
Qed.

Lemma optional_str_is_Some row k :
  is_Some (optional validate_str row k) ↔ text_or_null (row !! k).
Proof.
  rewrite optional_is_Some. unfold taken_or_null, text_or_null.
  split; (intros [? | [? | H]]; [by left | by right; left | right; right]).
  - destruct H as (x & -> & [w Hw]). destruct x; try discriminate. eauto.
  - destruct H as (x & ->). eexists. split; [done |]. by eexists.
Qed.

Lemma declared_row_valid row : declared_row row ↔ valid_row row.
Proof.
  unfold declared_row, valid_row, ARPEntry_model_dump.
  rewrite <- !required_str_is_Some, <- !optional_str_is_Some,
    <- !optional_is_Some.
  split.
  - intros ([? ->] & [? ->] & [? ->] & [? ->] & [? ->] & [? ->] & [? ->]
            & [? ->] & [? ->] & [? ->]).
    simpl. by eexists.
  - intros [d H]. apply validated_Ok in H.
    repeat (apply bind_Some in H as (? & ? & H)).
    repeat split; by eexists.
Qed.

Lemma enrich_total maps rows :
  Forall valid_row rows →
  ∃ outs, enrich oui_lookup validate_int validate_bool maps rows = Ok outs.
Proof.
  unfold enrich. induction 1 as [|row rows [d Hd] _ [outs IH]]; simpl.
  - by eexists.
  - rewrite Hd. simpl.
    apply ARPEntry_model_dump_Ok in Hd as (_ & Hmac & _).
    destruct (_fill_manufacturer_and_dhcp_Ok d maps.1 maps.2 Hmac)
      as (d' & -> & _).
    simpl. rewrite IH. simpl. by eexists.
Qed.

Lemma unfiltered_lists client arp_data ndp_data leases_v4 leases_v6 :
  get_dhcpv4_leases client = Ok leases_v4 → Forall mac_ok leases_v4 →
  get_dhcpv6_leases client = Ok leases_v6 → Forall mac_ok leases_v6 →
  get_arp_table client = Ok arp_data → Forall valid_row arp_data →
  get_ndp_table client = Ok ndp_data → Forall valid_row ndp_data →
  ∃ r, unfiltered client = Ok r
       ∧ status r = "success"
       ∧ Forall2 same_host arp_data (arp r)
       ∧ Forall2 same_host ndp_data (ndp r).
Proof.
  intros H4 F4 H6 F6 Ha Fa Hn Fn. unfold unfiltered. rewrite H4, H6. simpl.
  destruct (add_leases_Ok leases_v4 ([], ∅) F4) as (m4 & ->). simpl.
  destruct (add_leases_Ok leases_v6 m4 F6) as (maps & ->). simpl.
  unfold full_tables. rewrite Ha, Hn. simpl.
  destruct (enrich_total maps arp_data Fa) as (oa & Ea).
  destruct (enrich_total maps ndp_data Fn) as (on & En).
  rewrite Ea. simpl. rewrite En. simpl.
  eexists. split; [reflexivity |]. split; [reflexivity |].
  split; by eapply enrich_Ok.
Qed.

(** C3. A search for the wildcard, for white space or for the empty
    string, with no other filter, returns what the call without a search
    returns. Where every row of the two tables is a row as the model
    declares it, and every lease has a string for its MAC or none, that is
    the two tables of the collaborator, entry by entry and in order, with
    nothing filtered out; in every case it is that or the fixture. *)
Theorem C3_wildcard_is_unfiltered (client : option Client)
    (params : gmap string pyval) (s : string) :
  strip s = "*" ∨ strip s = "" →
  no_filters params →
  execute oui_lookup validate_int validate_bool client
    (<["search" := PStr s]> params)
  = execute oui_lookup validate_int validate_bool client
      (delete "search" params)
  ∧ (∀ c arp_data ndp_data leases_v4 leases_v6,
       client = Some c →
       get_dhcpv4_leases c = Ok leases_v4 → Forall mac_ok leases_v4 →
       get_dhcpv6_leases c = Ok leases_v6 → Forall mac_ok leases_v6 →
       get_arp_table c = Ok arp_data → Forall declared_row arp_data →
       get_ndp_table c = Ok ndp_data → Forall declared_row ndp_data →
       ∃ r, execute oui_lookup validate_int validate_bool client
              (<["search" := PStr s]> params) = Ok r
            ∧ status r = "success"
            ∧ Forall2 same_host arp_data (arp r)
            ∧ Forall2 same_host ndp_data (ndp r))
  ∧ (∀ c arp_data ndp_data r,
       client = Some c →
       get_arp_table c = Ok arp_data →
       get_ndp_table c = Ok ndp_data →
       execute oui_lookup validate_int validate_bool client
         (<["search" := PStr s]> params) = Ok r →
       r = _get_dummy_data
       ∨ (Forall2 same_host arp_data (arp r)
          ∧ Forall2 same_host ndp_data (ndp r))).
Proof.
  intros Hw Hf.
  assert (Hf1 : no_filters (<["search" := PStr s]> params)).
  { unfold no_filters, py_get in *. by rewrite !lookup_insert_ne. }
  assert (Hf2 : no_filters (delete "search" params)).
  { unfold no_filters, py_get in *. by rewrite !lookup_delete_ne. }
  assert (Hl : ∀ c,
    execute_try oui_lookup validate_int validate_bool c
      (<["search" := PStr s]> params) = unfiltered c).
  { intros c. destruct (decide (s = "")) as [-> | Hne].
    - apply execute_try_no_search; [| done].
      unfold py_get. by rewrite lookup_insert_eq.
    - eapply execute_try_wildcard; [| done..].
      unfold py_get. by rewrite lookup_insert_eq. }
  split; [| split].
  - destruct client as [c|]; [| done]. unfold execute. rewrite Hl.
    rewrite execute_try_no_search; [done | | done].
    unfold py_get. by rewrite lookup_delete_eq.
  - intros c arp_data ndp_data l4 l6 -> H4 F4 H6 F6 Ha Fa Hn Fn.
    unfold execute. rewrite Hl.
    destruct (unfiltered_lists c arp_data ndp_data l4 l6) as (r & -> & Hr);
      try done.
    + eapply Forall_impl; [exact Fa |]. intros ?. apply declared_row_valid.
    + eapply Forall_impl; [exact Fn |]. intros ?. apply declared_row_valid.
    + by exists r.
  - intros c arp_data ndp_data r -> Ha Hn. unfold execute. rewrite Hl.
    unfold unfiltered.
    destruct (get_dhcpv4_leases c) as [l4|]; simpl; [| intros [= <-]; by left].
    destruct (get_dhcpv6_leases c) as [l6|]; simpl; [| intros [= <-]; by left].
    destruct (add_leases _ l4) as [m4|]; simpl; [| intros [= <-]; by left].
    destruct (add_leases _ l6) as [m6|]; simpl; [| intros [= <-]; by left].
    destruct (full_tables _ _ _ _ _) as [t|] eqn:Ht; simpl;
      [| intros [= <-]; by left].
    intros [= <-]. right. eapply full_tables_Ok; eauto.
Qed.

Lemma search_ignores_filters client params params' s :
  py_get params "search" = PStr s → s ≠ "" →
  py_get params' "search" = PStr s →
  execute_try oui_lookup validate_int validate_bool client params'
  = execute_try oui_lookup validate_int validate_bool client params.
Proof.
  intros Hs Hne Hs'. unfold execute_try.
  rewrite Hs, Hs'. simpl. apply String.eqb_neq in Hne. rewrite Hne. simpl.
  reflexivity.
Qed.

(** C10. When a search that is neither empty nor the wildcard is given,
    the call returns from the search branch: the [mac], [ip] and [ipv6]
    arguments are not read, and two calls that differ in them only return
    the same result. *)
Theorem C10_search_ignores_filters (client : option Client)
    (params params' : gmap string pyval) (s : string) :
  py_get params "search" = PStr s →
  s ≠ "" → strip s ≠ "" → strip s ≠ "*" →
  (∀ k, k ≠ "mac" → k ≠ "ip" → k ≠ "ipv6" → params' !! k = params !! k) →
  execute oui_lookup validate_int validate_bool client params'
  = execute oui_lookup validate_int validate_bool client params.
Proof.
  intros Hs Hne _ _ Hk.
  assert (Hs' : py_get params' "search" = PStr s).
  { unfold py_get in *. by rewrite Hk. }
  destruct client as [c|]; [| done]. unfold execute.
  by rewrite (search_ignores_filters c params params' s).
Qed.

(** *** Searching by a name that only the lease knows *)

Lemma nameless_entry_matches tokens entry :
  nameless_entry entry →
  In "10.0.0.5" tokens ∨ In "aa:bb:cc:00:11:22" tokens →
  match_any tokens entry = true.
Proof.
  intros (Hip & Hmac & _) [H | H];
    (eapply match_any_intro; [exact H |]);
    unfold py_get_or; rewrite Hip, Hmac; simpl; auto.
Qed.

(** C2. The lease [trogdor-pc, 10.0.0.5, aa:bb:cc:00:11:22] and a
    neighbour entry with that address and MAC and a null hostname, in
    tables whose rows are rows as the model declares them (the entry, like
    every row, carries its interface) and with leases that have a string
    for their MAC or none: when the collaborator has [resolve_host_info]
    and answers the query with the identifiers of the lease, the search for
    "trogdor" returns that entry, found through its address or MAC. *)
Theorem C2_search_expands_through_lease client resolve info params entry
    arp_data ndp_data leases_v4 leases_v6 :
  get_dhcpv4_leases client = Ok leases_v4 → Forall mac_ok leases_v4 →
  get_dhcpv6_leases client = Ok leases_v6 → Forall mac_ok leases_v6 →
  get_arp_table client = Ok arp_data → Forall declared_row arp_data →
  get_ndp_table client = Ok ndp_data → Forall declared_row ndp_data →
  resolve_host_info client = Some resolve →
  resolve (PStr "trogdor") = Ok info →
  identifies_lease info →
  py_get params "search" = PStr "trogdor" →
  nameless_entry entry → entry ∈ arp_data →
  ∃ r, execute oui_lookup validate_int validate_bool (Some client) params
       = Ok r
       ∧ status r = "success"
       ∧ ∃ out, out ∈ arp r ∧ same_host entry out.
Proof.
  intros H4 F4 H6 F6 Ha Fa Hn Fn Hr Hi Hid Hs He Hin.
  assert (Fa' : Forall valid_row arp_data)
    by (eapply Forall_impl; [exact Fa |]; intros ?; apply declared_row_valid).
  assert (Fn' : Forall valid_row ndp_data)
    by (eapply Forall_impl; [exact Fn |]; intros ?; apply declared_row_valid).
  clear Fa Fn. rename Fa' into Fa, Fn' into Fn.
  unfold execute, execute_try. rewrite H4, H6. simpl.
  destruct (add_leases_Ok leases_v4 ([], ∅) F4) as (m4 & ->). simpl.
  destruct (add_leases_Ok leases_v6 m4 F6) as (maps & ->). simpl.
  rewrite Hs. simpl.
  destruct (resolve_queries_identified client resolve info "trogdor" Hr Hi Hid)
    as (tokens & -> & Htok).
  simpl. rewrite Ha, Hn. simpl.
  destruct (enrich_total maps (List.filter (match_any tokens) arp_data))
    as (arp_entries & Earp).
  { apply List.Forall_forall. intros row [Hrow _]%filter_In.
    by eapply List.Forall_forall in Fa. }
  destruct (enrich_total maps (List.filter (match_any tokens) ndp_data))
    as (ndp_entries & Endp).
  { apply List.Forall_forall. intros row [Hrow _]%filter_In.
    by eapply List.Forall_forall in Fn. }
  rewrite Earp. simpl. rewrite Endp. simpl.
  eexists. split; [reflexivity |]. split; [reflexivity |]. simpl.
  apply enrich_Ok in Earp.
  assert (Hf : entry ∈ List.filter (match_any tokens) arp_data).
  { apply list_elem_of_In, filter_In. split; [by apply list_elem_of_In |].
    by apply nameless_entry_matches. }
  apply list_elem_of_lookup in Hf as [i Hi'].
  destruct (Forall2_lookup_l _ _ _ _ _ Earp Hi') as (out & Ho & Hsame).
  exists out. split; [| exact Hsame]. by eapply list_elem_of_lookup_2.
Qed.

(** *** Exact filter against substring search *)

(** The test of the [mac] filter on an entry: equality of the lower-cased
    strings. *)
Definition mac_equals (mac_filter : string) (entry : gmap string pyval)
  : bool :=
  match entry !! "mac" with
  | Some (PStr m) => String.eqb (lower m) (lower mac_filter)
  | _ => false
  end.







Lemma enrich_mac_str maps rows outs :
  enrich oui_lookup validate_int validate_bool maps rows = Ok outs →
  Forall (λ out, is_str (out !! "mac")) outs.
Proof.
  unfold enrich. rewrite mapM_Ok. intros HF.
  eapply Forall2_Forall_r; [exact HF |]. clear HF.
  apply Forall_forall. intros row _ out H.
  apply bind_Ok in H as (d & Hd & H).
  apply ARPEntry_model_dump_Ok in Hd as (_ & Hmac & _).
  destruct (_fill_manufacturer_and_dhcp_Ok d maps.1 maps.2 Hmac)
    as (d' & E & _ & Hm & _).
  rewrite E in H. injection H as <-. by rewrite Hm.
Qed.

Lemma filterM_pure {A} (p : A → exc bool) (f : A → bool) (l : list A) :
  Forall (λ x, p x = Ok (f x)) l → filterM p l = Ok (List.filter f l).
Proof.
  induction 1 as [|x l Hx _ IH]; simpl; [done |].
  rewrite Hx. simpl. rewrite IH. simpl. by destruct (f x).
Qed.

Lemma mac_matches_equals m entry :
  is_str (entry !! "mac") →
  mac_matches (lower m) entry = Ok (mac_equals m entry).
Proof.
  intros [x Hx]. unfold mac_matches, mac_equals, py_get_or. by rewrite Hx.
Qed.







End Enrichment.

(** *** The theorems on concrete tables

    No vendor is known, and the models accept exactly the declared
    types. *)

Definition no_vendor (mac : pyval) : pyval := PNone.

Definition trogdor_entry : gmap string pyval :=
  <["ip" := PStr "10.0.0.5"]>
  (<["mac" := PStr "aa:bb:cc:00:11:22"]>
  (<["intf" := PStr "em0"]>
  (<["hostname" := PNone]> ∅))).

(** The collaborator of the search example; [resolve_host_info] answers
    with the lease under ["dhcpv4"], or does not exist. *)
Definition trogdor_client (resolves : bool) : Client :=
  {| get_arp_table := Ok [trogdor_entry];
     get_ndp_table := Ok [];
     get_dhcpv4_leases := Ok [trogdor_lease];
     get_dhcpv6_leases := Ok [];
     resolve_host_info :=
       if resolves
       then Some (λ _, Ok (<["dhcpv4" := IDict trogdor_lease]> ∅))
       else None;
     get_system_status := Ok ∅ |}.

Ltac declared_row_fields :=
  unfold declared_row, is_str, text_or_null, taken_or_null;
  repeat split;
  first [ eexists; reflexivity
        | left; reflexivity
        | right; left; reflexivity
        | right; right; eexists; reflexivity ].

Lemma trogdor_entry_declared : declared_row strict_int strict_bool trogdor_entry.
Proof. declared_row_fields. Qed.

Lemma two_hosts_declared rows :
  get_arp_table two_hosts = Ok rows →
  Forall (declared_row strict_int strict_bool) rows.
Proof.
  intros [= <-].
  constructor; [declared_row_fields |].
  constructor; [declared_row_fields | constructor].
Qed.

Lemma C2_search_expands_through_lease_witness :
  ∃ r, execute no_vendor strict_int strict_bool (Some (trogdor_client true))
         (<["search" := PStr "trogdor"]> ∅) = Ok r
       ∧ status r = "success"
       ∧ ∃ out, out ∈ arp r ∧ same_host trogdor_entry out.
Proof.
  eapply (C2_search_expands_through_lease no_vendor strict_int strict_bool
            (trogdor_client true) (λ _, Ok (<["dhcpv4" := IDict trogdor_lease]> ∅))
            (<["dhcpv4" := IDict trogdor_lease]> ∅)
            (<["search" := PStr "trogdor"]> ∅) trogdor_entry
            [trogdor_entry] [] [trogdor_lease] []).
  - reflexivity.
  - constructor; [right; eexists; vm_compute; reflexivity | constructor].
  - reflexivity.
  - constructor.
  - reflexivity.
  - constructor; [exact trogdor_entry_declared | constructor].
  - reflexivity.
  - constructor.
  - reflexivity.
  - reflexivity.
  - unfold identifies_lease, info_str_or_none, str_or_none.
    repeat split; eauto.
  - reflexivity.
  - repeat split.
  - by left.
Defined.

(** The entry comes back with the name of the lease; without
    [resolve_host_info] the only token is the query, and nothing matches. *)
Example trogdor_found :
  (λ r, (λ e, (e !! "ip", e !! "hostname")) <$> arp r)
    <$> execute no_vendor strict_int strict_bool (Some (trogdor_client true))
          (<["search" := PStr "trogdor"]> ∅)
  = Ok [(Some (PStr "10.0.0.5"), Some (PStr "trogdor-pc"))].
Proof. vm_compute. reflexivity. Qed.

Example trogdor_not_resolved :
  arp <$> execute no_vendor strict_int strict_bool
            (Some (trogdor_client false)) (<["search" := PStr "trogdor"]> ∅)
  = Ok [].
Proof. vm_compute. reflexivity. Qed.

(** The entry of the search example as the specification writes it: an
    address, a MAC and a null hostname, and nothing else. The model asks
    for an interface, so the row is not one that it accepts. *)
Definition literal_entry : gmap string pyval :=
  <["ip" := PStr "10.0.0.5"]>
  (<["mac" := PStr "aa:bb:cc:00:11:22"]>
  (<["hostname" := PNone]> ∅)).

Definition literal_client : Client :=
  {| get_arp_table := Ok [literal_entry];
     get_ndp_table := Ok [];
     get_dhcpv4_leases := Ok [trogdor_lease];
     get_dhcpv6_leases := Ok [];
     resolve_host_info :=
       Some (λ _, Ok (<["dhcpv4" := IDict trogdor_lease]> ∅));
     get_system_status := Ok ∅ |}.

Lemma fixture_lacks_literal_entry :
  ¬ ∃ out, out ∈ arp _get_dummy_data ∧ same_host literal_entry out.
Proof.
  intros (out & Hin & Hip & _). apply list_elem_of_In in Hin.
  destruct Hin as [<- | []]. vm_compute in Hip. discriminate.
Qed.

(** At the entry as written, the search for "trogdor" selects the entry
    through the address of the lease, the model rejects it, and the call
    ends in the fixture: the entry is not returned. *)
Lemma C2_literal_entry_counterexample :
  nameless_entry literal_entry
  ∧ identifies_lease (<["dhcpv4" := IDict trogdor_lease]> ∅)
  ∧ resolve_queries literal_client (PStr "trogdor")
    = Ok ["trogdor"; "10.0.0.5"; "aa:bb:cc:00:11:22"; "trogdor-pc"]
  ∧ ∀ oui_lookup validate_int validate_bool,
      execute oui_lookup validate_int validate_bool (Some literal_client)
        (<["search" := PStr "trogdor"]> ∅) = Ok _get_dummy_data
      ∧ ¬ ∃ r, execute oui_lookup validate_int validate_bool
                 (Some literal_client) (<["search" := PStr "trogdor"]> ∅)
               = Ok r
               ∧ ∃ out, out ∈ arp r ∧ same_host literal_entry out.
Proof.
  split; [repeat split |].
  split.
  { unfold identifies_lease, info_str_or_none, str_or_none.
    repeat split; eauto. }
  split; [vm_compute; reflexivity |].
  intros oui_lookup validate_int validate_bool.
  assert (H : execute oui_lookup validate_int validate_bool
                (Some literal_client) (<["search" := PStr "trogdor"]> ∅)
              = Ok _get_dummy_data) by (vm_compute; reflexivity).
  split; [exact H |]. rewrite H. intros (r & [= <-] & Hout).
  by apply fixture_lacks_literal_entry.
Qed.

(** The two other ways to the fixture: a second row that the search
    selects and the model rejects, and a lease whose MAC is a number. *)
Example selected_row_without_interface :
  execute no_vendor strict_int strict_bool
    (Some {| get_arp_table :=
               Ok [trogdor_entry; <["ip" := PStr "10.0.0.50"]> ∅];
             get_ndp_table := Ok [];
             get_dhcpv4_leases := Ok [trogdor_lease];
             get_dhcpv6_leases := Ok [];
             resolve_host_info :=
               Some (λ _, Ok (<["dhcpv4" := IDict trogdor_lease]> ∅));
             get_system_status := Ok ∅ |})
    (<["search" := PStr "trogdor"]> ∅)
  = Ok _get_dummy_data.
Proof. vm_compute. reflexivity. Qed.

Example lease_with_numeric_mac :
  execute no_vendor strict_int strict_bool
    (Some {| get_arp_table := Ok [trogdor_entry];
             get_ndp_table := Ok [];
             get_dhcpv4_leases :=
               Ok [trogdor_lease; <["mac" := PInt 42]> ∅];
             get_dhcpv6_leases := Ok [];
             resolve_host_info :=
               Some (λ _, Ok (<["dhcpv4" := IDict trogdor_lease]> ∅));
             get_system_status := Ok ∅ |})
    (<["search" := PStr "trogdor"]> ∅)
  = Ok _get_dummy_data.
Proof. vm_compute. reflexivity. Qed.

(** A no-break space, U+00A0, in UTF-8. *)
Definition nbsp : string :=
  String (ascii_of_nat 194) (String (ascii_of_nat 160) "").

Lemma C3_wildcard_is_unfiltered_witness :
  (strip (nbsp +:+ "* ") = "*" ∨ strip (nbsp +:+ "* ") = "")
  ∧ no_filters ∅
  ∧ execute no_vendor strict_int strict_bool (Some two_hosts)
      (<["search" := PStr (nbsp +:+ "* ")]> ∅)
    = execute no_vendor strict_int strict_bool (Some two_hosts)
        (delete "search" ∅)
  ∧ ∃ rows r,
      get_arp_table two_hosts = Ok rows ∧ length rows = 2%nat
      ∧ execute no_vendor strict_int strict_bool (Some two_hosts)
          (<["search" := PStr (nbsp +:+ "* ")]> ∅) = Ok r
      ∧ Forall2 same_host rows (arp r) ∧ ndp r = [].
Proof.
  split; [left; vm_compute; reflexivity |]. split; [repeat split |].
  destruct (C3_wildcard_is_unfiltered no_vendor strict_int strict_bool
              (Some two_hosts) ∅ (nbsp +:+ "* ")) as (H & Hfull & _);
    [left; vm_compute; reflexivity | repeat split |].
  split; [exact H |].
  destruct (get_arp_table two_hosts) as [rows|] eqn:Hrows; [| discriminate].
  destruct (Hfull two_hosts rows [] [] [] eq_refl eq_refl (Forall_nil_2 _)
              eq_refl (Forall_nil_2 _) Hrows (two_hosts_declared rows Hrows)
              eq_refl (Forall_nil_2 _)) as (r & Hr & _ & Harp & Hndp).
  exists rows, r. split; [done |]. split; [by injection Hrows as <- |].
  split; [exact Hr |]. split; [exact Harp |]. by inversion Hndp.
Defined.

(** A table with a row that the model rejects: the wildcard search, like
    the call without a search, ends in the fixture, which does not list the
    row of the table. *)
Lemma C3_rejected_row_counterexample :
  (strip "*" = "*" ∨ strip "*" = "")
  ∧ no_filters ∅
  ∧ get_arp_table literal_client = Ok [literal_entry]
  ∧ ∀ oui_lookup validate_int validate_bool,
      execute oui_lookup validate_int validate_bool (Some literal_client)
        (<["search" := PStr "*"]> ∅) = Ok _get_dummy_data
      ∧ execute oui_lookup validate_int validate_bool (Some literal_client) ∅
        = Ok _get_dummy_data
      ∧ ¬ Forall2 same_host [literal_entry] (arp _get_dummy_data).
Proof.
  split; [by left |]. split; [repeat split |]. split; [reflexivity |].
  intros oui_lookup validate_int validate_bool.
  split; [vm_compute; reflexivity |]. split; [vm_compute; reflexivity |].
  intros H. apply fixture_lacks_literal_entry.
  unfold _get_dummy_data in *. simpl in *.
  apply Forall2_cons_1 in H as [Hsame _].
  eexists. split; [| exact Hsame]. apply elem_of_cons. by left.
Qed.

Lemma C10_search_ignores_filters_witness :
  execute no_vendor strict_int strict_bool (Some two_hosts)
    (<["mac" := PStr "AA:BB:CC:DD:EE:FF"]> (<["search" := PStr "aa:bb"]> ∅))
  = execute no_vendor strict_int strict_bool (Some two_hosts)
      (<["search" := PStr "aa:bb"]> ∅).
Proof.
  apply (C10_search_ignores_filters no_vendor strict_int strict_bool
           (Some two_hosts) (<["search" := PStr "aa:bb"]> ∅)
           (<["mac" := PStr "AA:BB:CC:DD:EE:FF"]>
              (<["search" := PStr "aa:bb"]> ∅)) "aa:bb").
  - reflexivity.
  - discriminate.
  - discriminate.
  - discriminate.
  - intros k Hk _ _. by rewrite lookup_insert_ne.
Defined.



(** The two results, by the addresses they list. *)
Example filter_and_search_results :
  ((λ r, (λ e, e !! "ip") <$> arp r)
     <$> execute no_vendor strict_int strict_bool (Some two_hosts)
           (<["mac" := PStr "AA:BB:CC:DD:EE:FF"]> ∅),
   (λ r, (λ e, e !! "ip") <$> arp r)
     <$> execute no_vendor strict_int strict_bool (Some two_hosts)
           (<["search" := PStr "aa:bb"]> ∅))
  = (Ok [Some (PStr "192.168.1.10")],
     Ok [Some (PStr "192.168.1.10"); Some (PStr "192.168.1.11")]).
Proof. vm_compute. reflexivity. Qed.

End ARPProps.

(** ** The DHCP tool: the reconciled status, stated on the tables *)

Module DHCPStatus.
Import DHCPTool.

(** A neighbour table lists the string [v] under the key [k]: [v] is not
    empty and some row of the table carries it under [k]. *)
Definition listed (k : string) (table : list (gmap string pyval))
    (v : string) : Prop :=
  v ≠ "" ∧ ∃ row, row ∈ table ∧ row !! k = Some (PStr v).

(** The address of a lease: what it carries under [ip] or, when it has no
    such key, under [address]. *)
Definition lease_address (lease : gmap string pyval) (a : string) : Prop :=
  lease !! "ip" = Some (PStr a)
  ∨ (lease !! "ip" = None ∧ lease !! "address" = Some (PStr a)).

(** The raw flag of the lease is set. *)
Definition flagged_online (lease : gmap string pyval) : Prop :=
  ∃ v, lease !! "online" = Some v ∧ truthy v = true.

(** The lease is seen alive: its address or its MAC is listed in the
    neighbour table, or its flag is set. *)
Definition alive (table : list (gmap string pyval))
    (lease : gmap string pyval) (a m : string) : Prop :=
  listed "ip" table a ∨ listed "mac" table m ∨ flagged_online lease.

(** What the specification asks of the entry [out] returned for [lease],
    given the neighbour table of the family of the lease. *)
Definition reconciled (table : list (gmap string pyval))
    (lease out : gmap string pyval) : Prop :=
  ∃ a m,
    lease_address lease a ∧ lease !! "mac" = Some (PStr m)
    ∧ out !! "ip" = Some (PStr a) ∧ out !! "mac" = Some (PStr m)
    ∧ (alive table lease a m → out !! "actual_status" = Some (PStr "Online"))
    ∧ (¬ alive table lease a m →
       out !! "actual_status" = Some (PStr "Offline")).

Lemma py_in_listed k table v :
  py_in (PStr v) (neighbor_set k table) = true ↔ listed k table v.
Proof.
  unfold py_in, neighbor_set, listed. rewrite existsb_exists. split.
  - intros (x & Hx & Heq). apply filter_In in Hx as [Hx Ht].
    apply in_map_iff in Hx as (row & <- & Hrow).
    destruct (py_get row k) as [| | |w] eqn:Hw; try discriminate.
    simpl in Heq. apply String.eqb_eq in Heq as <-.
    split.
    + intros ->. discriminate.
    + exists row. split; [by apply list_elem_of_In |].
      unfold py_get in Hw. destruct (row !! k) as [x|]; simpl in Hw;
        [by subst | discriminate].
  - intros (Hne & row & Hrow & Hk). exists (PStr v). split.
    + apply filter_In. split.
      * apply in_map_iff. exists row. split; [| by apply list_elem_of_In].
        unfold py_get. by rewrite Hk.
      * simpl. apply String.eqb_neq in Hne. by rewrite Hne.
    + simpl. apply String.eqb_refl.
Qed.

Lemma normalize_other entry k :
  k ≠ "ip" → k ≠ "address" → _normalize_lease_entry entry !! k = entry !! k.
Proof.
  intros H1 H2. unfold _normalize_lease_entry.
  destruct (entry !! "address"); [| done]. destruct (entry !! "ip"); [done |].
  by rewrite lookup_insert_ne, lookup_delete_ne.
Qed.

Lemma normalize_address entry a :
  _normalize_lease_entry entry !! "ip" = Some (PStr a) → lease_address entry a.
Proof.
  unfold _normalize_lease_entry, lease_address.
  destruct (entry !! "address") as [x|] eqn:Ha;
    destruct (entry !! "ip") as [y|] eqn:Hi; rewrite ?Hi; try tauto;
    try discriminate.
  rewrite lookup_insert_eq. intros [= ->]. tauto.
Qed.

Lemma process_lease_reconciled validate_bool table entry out :
  process_lease validate_bool (neighbor_set "ip" table)
    (neighbor_set "mac" table) entry = Ok out →
  reconciled table entry out.
Proof.
  intros H. pose proof (DHCPProps.process_lease_status _ _ _ _ _ H) as Hs.
  unfold process_lease, DHCPLease_model_dump in H. rewrite validated_Ok in H.
  apply bind_Some in H as (ip & Hip%ARPProps.required_str_Some & H).
  apply bind_Some in H as (mac & Hmac%ARPProps.required_str_Some & H).
  repeat (apply bind_Some in H as (? & _ & H)).
  injection H as <-.
  destruct Hip as [Hip [a [= ->]]], Hmac as [Hmac [m [= ->]]].
  rewrite lookup_insert_ne in Hip, Hmac by done.
  rewrite normalize_other in Hmac by done.
  exists a, m. split; [by apply normalize_address |]. split; [done |].
  split; [by rewrite lookup_insert_eq |].
  split; [by rewrite lookup_insert_ne, lookup_insert_eq |].
  set (lease := _normalize_lease_entry entry) in *.
  assert (Halive : alive table entry a m
                   ↔ DHCPProps.in_table table lease = true
                     ∨ DHCPProps.online lease = true).
  { unfold alive, DHCPProps.in_table, DHCPProps.online, py_get, py_get_or.
    rewrite Hip. subst lease. rewrite !normalize_other by done.
    rewrite Hmac. simpl. rewrite orb_true_iff, !py_in_listed.
    unfold flagged_online.
    destruct (entry !! "online") as [v|]; simpl.
    - split; [intros [?|[?|(? & [= <-] & ?)]]; auto
             | intros [[?|?]|?]; eauto].
    - split; [intros [?|[?|(? & [=] & _)]]; auto
             | intros [[?|?]|[=]]; auto]. }
  rewrite Halive, Hs. split.
  - intros Hl. do 2 f_equal. by apply DHCPProps.actual_status_Online.
  - intros Hl. do 2 f_equal. by apply DHCPProps.actual_status_Offline.
Qed.

Lemma execute_success validate_bool client params r :
  execute validate_bool (Some client) params = Ok r →
  status r = "success" →
  ∃ a n l4 l6,
    get_arp_table client = Ok a ∧ get_ndp_table client = Ok n
    ∧ get_dhcpv4_leases client = Ok l4 ∧ get_dhcpv6_leases client = Ok l6
    ∧ mapM (process_lease validate_bool (neighbor_set "ip" a)
              (neighbor_set "mac" a)) l4 = Ok (dhcpv4 r)
    ∧ mapM (process_lease validate_bool (neighbor_set "ip" n)
              (neighbor_set "mac" n)) l6 = Ok (dhcpv6 r).
Proof.
  intros He Hs. unfold execute, execute_try in He.
  destruct (get_dhcpv4_leases client) as [l4|]; simpl in He;
    [| injection He as <-; discriminate].
  destruct (get_dhcpv6_leases client) as [l6|]; simpl in He;
    [| injection He as <-; discriminate].
  destruct (get_arp_table client) as [a|]; simpl in He;
    [| injection He as <-; discriminate].
  destruct (get_ndp_table client) as [n|]; simpl in He;
    [| injection He as <-; discriminate].
  destruct (mapM _ l4) as [o4|] eqn:M4; simpl in He;
    [| injection He as <-; discriminate].
  destruct (mapM _ l6) as [o6|] eqn:M6; simpl in He;
    [| injection He as <-; discriminate].
  injection He as <-. simpl. by exists a, n, l4, l6.
Qed.

(** C1. For every DHCPv4 lease that [DHCPTool.execute] processes, the
    entry returned for it carries [actual_status] "Online" when the address
    of the lease is listed in the ARP table, or its MAC is listed there, or
    its raw [online] flag is true - in particular when it is listed and the
    flag is false - and "Offline" otherwise; for every DHCPv6 lease the
    same holds with the NDP table. The table of the other family does not
    enter: the DHCPv4 entries are the same whatever the NDP table and the
    DHCPv6 leases are, and the DHCPv6 entries the same whatever the ARP
    table and the DHCPv4 leases are. *)
Theorem C1_actual_status validate_bool client params arp_data ndp_data
    leases_v4 leases_v6 r :
  get_arp_table client = Ok arp_data →
  get_ndp_table client = Ok ndp_data →
  get_dhcpv4_leases client = Ok leases_v4 →
  get_dhcpv6_leases client = Ok leases_v6 →
  execute validate_bool (Some client) params = Ok r →
  status r = "success" →
  Forall2 (reconciled arp_data) leases_v4 (dhcpv4 r)
  ∧ Forall2 (reconciled ndp_data) leases_v6 (dhcpv6 r)
  ∧ (∀ client' params' r',
       get_arp_table client' = Ok arp_data →
       get_dhcpv4_leases client' = Ok leases_v4 →
       execute validate_bool (Some client') params' = Ok r' →
       status r' = "success" → dhcpv4 r' = dhcpv4 r)
  ∧ (∀ client' params' r',
       get_ndp_table client' = Ok ndp_data →
       get_dhcpv6_leases client' = Ok leases_v6 →
       execute validate_bool (Some client') params' = Ok r' →
       status r' = "success" → dhcpv6 r' = dhcpv6 r).
Proof.
  intros Harp Hndp H4 H6 Hex Hst.
  destruct (execute_success _ _ _ _ Hex Hst)
    as (a & n & l4 & l6 & Ea & En & E4 & E6 & M4 & M6).
  rewrite Harp in Ea. rewrite Hndp in En. rewrite H4 in E4. rewrite H6 in E6.
  injection Ea as <-. injection En as <-. injection E4 as <-. injection E6 as <-.
  split; [| split; [| split]].
  - apply mapM_Ok in M4. eapply Forall2_impl; [exact M4 |].
    intros ? ?. apply process_lease_reconciled.
  - apply mapM_Ok in M6. eapply Forall2_impl; [exact M6 |].
    intros ? ?. apply process_lease_reconciled.
  - intros c' p' r' Ha' H4' Hex' Hst'.
    destruct (execute_success _ _ _ _ Hex' Hst')
      as (a' & n' & l4' & l6' & Ea & _ & E4 & _ & M4' & _).
    rewrite Ha' in Ea. rewrite H4' in E4.
    injection Ea as <-. injection E4 as <-. congruence.
  - intros c' p' r' Hn' H6' Hex' Hst'.
    destruct (execute_success _ _ _ _ Hex' Hst')
      as (a' & n' & l4' & l6' & _ & En & _ & E6 & _ & M6').
    rewrite Hn' in En. rewrite H6' in E6.
    injection En as <-. injection E6 as <-. congruence.
Qed.

(** The theorem at [lan_client]: one lease with its flag off, served as
    DHCPv4 and as DHCPv6 lease; its address is in the ARP table and the NDP
    table is empty. The DHCPv4 entry is Online, the DHCPv6 entry is
    Offline. *)
Lemma C1_actual_status_witness :
  ∃ r o4 o6,
    execute strict_bool (Some DHCPProps.lan_client) ∅ = Ok r
    ∧ status r = "success"
    ∧ dhcpv4 r = [o4] ∧ dhcpv6 r = [o6]
    ∧ o4 !! "actual_status" = Some (PStr "Online")
    ∧ o6 !! "actual_status" = Some (PStr "Offline").
Proof.
  destruct (execute strict_bool (Some DHCPProps.lan_client) ∅) as [r|] eqn:Hr;
    [| vm_compute in Hr; discriminate].
  assert (Hs : status r = "success")
    by (vm_compute in Hr; by injection Hr as <-).
  destruct (C1_actual_status strict_bool DHCPProps.lan_client ∅
              DHCPProps.lan_arp_table [] [DHCPProps.stale_lease]
              [DHCPProps.stale_lease] r eq_refl eq_refl eq_refl eq_refl Hr Hs)
    as (F4 & F6 & _).
  assert (Haddr : ∀ a, lease_address DHCPProps.stale_lease a → a = "10.0.0.5").
  { intros a [H | [_ H]]; vm_compute in H; congruence. }
  assert (Hflag : ¬ flagged_online DHCPProps.stale_lease).
  { intros (v & Hv & Ht). vm_compute in Hv. injection Hv as <-. discriminate. }
  inversion F4 as [|? o4 ? k4 (a & m & Ha & _ & _ & _ & Hon & _) T4 E4 E4'].
  inversion T4. subst.
  inversion F6 as [|? o6 ? k6 (a6 & m6 & _ & _ & _ & _ & _ & Hoff) T6 E6 E6'].
  inversion T6. subst.
  exists r, o4, o6. repeat (split; [done |]). split.
  - apply Hon. left. rewrite (Haddr a Ha). split; [discriminate |].
    eexists. split; [apply elem_of_cons; by left | reflexivity].
  - apply Hoff. intros [(_ & row & Hrow & _) | [(_ & row & Hrow & _) | Hf]].
    + by apply elem_of_nil in Hrow.
    + by apply elem_of_nil in Hrow.
    + by apply Hflag.
Defined.

End DHCPStatus.

(** ** The tools without a collaborator *)

Module FixtureProps.

Lemma arp_without_client oui_lookup validate_int validate_bool params :
  ARPTool.execute oui_lookup validate_int validate_bool None params
  = Ok ARPTool._get_dummy_data.
Proof. reflexivity. Qed.

Lemma dhcp_without_client validate_bool params :
  DHCPTool.execute validate_bool None params = Ok DHCPTool._get_dummy_data.
Proof. reflexivity. Qed.

(** None of the three tools raises, with or without a client. *)
Lemma arp_returns oui_lookup validate_int validate_bool client params :
  ∃ r, ARPTool.execute oui_lookup validate_int validate_bool client params
       = Ok r.
Proof. apply try_except_returns. intros _. by eexists. Qed.

Lemma dhcp_returns validate_bool client params :
  ∃ r, DHCPTool.execute validate_bool client params = Ok r.
Proof. apply try_except_returns. intros e. by eexists. Qed.

Lemma system_returns client params :
  ∃ r, SystemTool.execute client params = Ok r.
Proof. apply try_except_returns. intros e. by eexists. Qed.

(** With a client, the system tool passes on what the client reports. *)
Lemma system_with_client client params report :
  get_system_status client = Ok report →
  SystemTool.execute (Some client) params = Ok report.
Proof. intros H. unfold SystemTool.execute. by rewrite H. Qed.

(** C6, as the code has it. With [self.client] set to [None] the ARP and
    the DHCP tool return their fixtures. The system tool does not raise
    either, but what it returns is no fixture: the call of
    [get_system_status] on [None] fails, and the handler turns the failure
    into an error report. *)
Theorem C6_system_without_client oui_lookup validate_int validate_bool params :
  ARPTool.execute oui_lookup validate_int validate_bool None params
  = Ok ARPTool._get_dummy_data
  ∧ DHCPTool.execute validate_bool None params = Ok DHCPTool._get_dummy_data
  ∧ SystemTool.execute None params
    = Ok (<["error" := PStr "Failed to get system status: 'NoneType' object has no attribute 'get_system_status'"]>
         (<["status" := PStr "error"]> ∅)).
Proof. repeat split. Qed.

End FixtureProps.

(** ** The dispatcher: outcomes and error codes *)

Module DispatcherProps.
Import Dispatcher.

Definition tool_names : list string :=
  ["arp"; "dhcp"; "get_logs"; "lldp"; "system"; "fw_rules"; "mkfw_rule";
   "rmfw_rule"; "interface_list"].

Definition tools_call (m : string) : Prop := m = "tools/call" ∨ m = "tool/call".

Section Codes.
Variable tools : string → argval → exc string.
Variable dict_str : gmap string pyval → string.

(** Whatever happens inside [call_tool], what leaves it is an
    [HTTPException] with status 500. *)
Lemma call_tool_status tool_name arguments :
  http_status (call_tool tools dict_str tool_name arguments) = 200
  ∨ http_status (call_tool tools dict_str tool_name arguments) = 500.
Proof.
  unfold call_tool.
  destruct (if arg_is tool_name "arp" then _ else _); simpl; auto.
Qed.

Lemma method_is_tools_call m :
  tools_call m →
  String.eqb m "initialize" = false
  ∧ String.eqb m "tools/list" || String.eqb m "ListOfferings" = false
  ∧ String.eqb m "tools/call" || String.eqb m "tool/call" = true.
Proof. intros [-> | ->]; done. Qed.

(** No tool name: code -32602. *)
Lemma missing_tool_name request :
  tools_call (method request) →
  arg_truthy (arg_or (arg_get (default ∅ (params request)) "name")
                     (arg_get (default ∅ (params request)) "tool")) = false →
  jsonrpc_endpoint tools dict_str request
  = Error (id request) (-32602) "Invalid params: tool name is required".
Proof.
  intros (H1 & H2 & H3)%method_is_tools_call Hn. unfold jsonrpc_endpoint.
  by rewrite H1, H2, H3, Hn.
Qed.

(** A tool call never answers with code -32601: a failure below
    [call_tool] arrives with status 500 and is reported as -32603. *)
Lemma tools_call_codes request msg_id code message :
  tools_call (method request) →
  jsonrpc_endpoint tools dict_str request = Error msg_id code message →
  code = -32602 ∨ code = -32603.
Proof.
  intros (H1 & H2 & H3)%method_is_tools_call. unfold jsonrpc_endpoint.
  rewrite H1, H2, H3.
  destruct (negb _); [intros [= _ <- _]; by left |].
  unfold call_tool.
  destruct (if arg_is _ "arp" then _ else _); simpl; [discriminate |].
  intros [= _ <- _]. by right.
Qed.

(** A known tool that raises: code -32603, status 500. *)
Lemma failing_tool request name arguments e :
  tools_call (method request) →
  In name tool_names →
  arg_get (default ∅ (params request)) "name" = AVal (PStr name) →
  arg_or (arg_or (arg_get (default ∅ (params request)) "arguments")
                 (arg_get (default ∅ (params request)) "args")) (AObj ∅)
  = arguments →
  tools name arguments = Raise e →
  jsonrpc_endpoint tools dict_str request
  = Error (id request) (-32603) ("Error executing tool: " +:+ exn_str e)
  ∧ http_status (call_tool tools dict_str (AVal (PStr name)) arguments) = 500.
Proof.
  intros (H1 & H2 & H3)%method_is_tools_call Hin Hname Hargs Hraise.
  unfold jsonrpc_endpoint. rewrite H1, H2, H3, Hname, Hargs.
  simpl in Hin.
  destruct Hin as [<-|[<-|[<-|[<-|[<-|[<-|[<-|[<-|[<-|[]]]]]]]]]];
    unfold arg_or, call_tool; simpl; rewrite Hraise; simpl; done.
Qed.

(** C8, as the code has it. A [tools/call] without a tool name is
    answered with code -32602. A tool that does not exist is not answered
    with -32601 and 404: the 404 raised inside [call_tool] is caught by the
    handler of the same function and leaves as status 500, which
    [jsonrpc_endpoint] reports as -32603. *)
Theorem C8_unknown_tool msg_id arguments :
  jsonrpc_endpoint tools dict_str
    {| id := msg_id; method := "tools/call"; params := Some ∅ |}
  = Error msg_id (-32602) "Invalid params: tool name is required"
  ∧ call_tool tools dict_str (AVal (PStr "nope")) arguments
    = Raise (HTTPException 500
               "Error executing tool: 404: Tool not found: nope")
  ∧ http_status (call_tool tools dict_str (AVal (PStr "nope")) arguments)
    = 500
  ∧ jsonrpc_endpoint tools dict_str
      {| id := msg_id; method := "tools/call";
         params := Some (<["name" := AVal (PStr "nope")]> ∅) |}
    = Error msg_id (-32603)
        "Error executing tool: 404: Tool not found: nope".
Proof. repeat split. Qed.

End Codes.
End DispatcherProps.

(** ** The push channel: registry, errors and order *)

Module BrokerProps.
Import Broker.

(** The registry names queues that exist, and no two clients share one. *)
Definition wf (st : State) : Prop :=
  (∀ c q, client_connections st !! c = Some q → q ∈ dom (queues st))
  ∧ (∀ c1 c2 q, client_connections st !! c1 = Some q →
                client_connections st !! c2 = Some q → c1 = c2).

(** The content of the queue of a client, if it has one. *)
Definition queue_of (st : State) (c : string) : option (list (option Event)) :=
  q ← client_connections st !! c; queues st !! q.

Lemma wf_empty : wf {| queues := ∅; client_connections := ∅ |}.
Proof. split; simpl; intros *; by rewrite lookup_empty. Qed.

Lemma wf_put q item st : wf st → wf (put q item st).
Proof.
  intros [Hd Hi]. split; simpl; [| exact Hi].
  intros c q' H. rewrite dom_insert_L. apply Hd in H. set_solver.
Qed.

Lemma wf_cleanup c st : wf st → wf (cleanup c st).
Proof.
  intros [Hd Hi]. split; simpl.
  - intros c' q. rewrite lookup_delete_Some. intros [_ H]. by eapply Hd.
  - intros c1 c2 q. rewrite !lookup_delete_Some. intros [_ H1] [_ H2].
    by eapply Hi.
Qed.

Lemma wf_register c st : wf st → wf (register c st).
Proof.
  intros [Hd Hi]. unfold register.
  pose proof (is_fresh (dom (queues st))) as Hfresh.
  split; simpl.
  - intros c' q. rewrite dom_insert_L, lookup_insert_Some.
    intros [[_ <-] | [_ H]]; [set_solver |]. apply Hd in H. set_solver.
  - intros c1 c2 q. rewrite !lookup_insert_Some.
    intros [[E1 Q1] | [Hn1 H1]] [[E2 Q2] | [Hn2 H2]].
    + congruence.
    + apply Hd in H2. by rewrite <- Q1 in H2.
    + apply Hd in H1. by rewrite <- Q2 in H1.
    + by eapply Hi.
Qed.

Lemma queue_of_register c st : queue_of (register c st) c = Some [].
Proof.
  unfold queue_of, register. simpl. rewrite lookup_insert_eq. simpl.
  by rewrite lookup_insert_eq.
Qed.

Section Channel.
Variable json_dumps : argval → string.

Lemma wf_send c data st : wf st → wf (send_to_client json_dumps c data st).2.
Proof.
  intros H. unfold send_to_client.
  destruct (client_connections st !! c); simpl; [by apply wf_put | done].
Qed.

(** Sending to a client without a queue: 404, and nothing changes. *)
Lemma send_not_connected c data st :
  client_connections st !! c = None →
  send_to_client json_dumps c data st
  = (Raise (HTTPException 404 ("Client " +:+ c +:+ " not connected")), st).
Proof. intros H. unfold send_to_client. by rewrite H. Qed.

(** Sending to a client with a queue: one event more at the end of that
    queue; the registry and the queues of the other clients stay. *)
Lemma send_connected c data st items :
  wf st → queue_of st c = Some items →
  ∃ st', send_to_client json_dumps c data st = (Ok "sent", st')
         ∧ queue_of st' c = Some (items ++ [Some (event_of json_dumps data)])%list
         ∧ client_connections st' = client_connections st
         ∧ ∀ c', c' ≠ c → queue_of st' c' = queue_of st c'.
Proof.
  intros [_ Hi] Hq. unfold queue_of in Hq.
  destruct (client_connections st !! c) as [q|] eqn:Hc; [| done].
  simpl in Hq. unfold send_to_client. rewrite Hc. eexists.
  split; [reflexivity |]. unfold queue_of, put. simpl. rewrite Hc, Hq. simpl.
  split; [by rewrite lookup_insert_eq |]. split; [done |].
  intros c' Hne. destruct (client_connections st !! c') as [q'|] eqn:Hc';
    [simpl | done].
  rewrite lookup_insert_ne; [done |]. intros <-. apply Hne. by eapply Hi.
Qed.

(** When the stream of a client ends, on the close signal or because the
    consumer went away, the registry has no queue for it. *)
Lemma resume_stop g st g' st' :
  position g ≠ Finished →
  resume json_dumps g st = (StopAsyncIteration, g', st') →
  client_connections st' !! client_id g = None.
Proof.
  intros Hp. unfold resume, loop, get.
  destruct (position g); try done;
    repeat (match goal with
            | |- context [match ?x with _ => _ end] => destruct x eqn:?
            end; simpl);
    intros [= <- <-]; simpl; apply lookup_delete_eq.
Qed.

Lemma cancel_unregisters g st :
  position g ≠ Created → position g ≠ Finished →
  client_connections (cancel g st).2 !! client_id g = None.
Proof.
  intros H1 H2. unfold cancel.
  destruct (position g); try done; simpl; apply lookup_delete_eq.
Qed.

(** C4. A client id without a registered queue: the post is refused with
    404 and the state is left as it was; this is so in particular once the
    stream of the client has ended on the close signal, or the consumer has
    gone away. A client id with a queue: the post is accepted, the event is
    appended to the queue of that client, and the queue of every other
    client is left as it was. *)
Theorem C4_send_to_client c data st :
  wf st →
  (client_connections st !! c = None →
   send_to_client json_dumps c data st
   = (Raise (HTTPException 404 ("Client " +:+ c +:+ " not connected")), st))
  ∧ (∀ g st0 g', client_id g = c → position g ≠ Finished →
       resume json_dumps g st0 = (StopAsyncIteration, g', st) →
       send_to_client json_dumps c data st
       = (Raise (HTTPException 404 ("Client " +:+ c +:+ " not connected")),
          st))
  ∧ (∀ g st0, client_id g = c →
       position g ≠ Created → position g ≠ Finished →
       st = (cancel g st0).2 →
       send_to_client json_dumps c data st
       = (Raise (HTTPException 404 ("Client " +:+ c +:+ " not connected")),
          st))
  ∧ (∀ items, queue_of st c = Some items →
       ∃ st', send_to_client json_dumps c data st = (Ok "sent", st')
              ∧ queue_of st' c
                = Some (items ++ [Some (event_of json_dumps data)])%list
              ∧ client_connections st' = client_connections st
              ∧ ∀ c', c' ≠ c → queue_of st' c' = queue_of st c').
Proof.
  intros Hwf. split; [apply send_not_connected |].
  split; [| split].
  - intros g st0 g' <- Hp Hr. apply send_not_connected.
    by eapply resume_stop.
  - intros g st0 <- H1 H2 ->. apply send_not_connected.
    by apply cancel_unregisters.
  - intros items. by apply send_connected.
Qed.

(** *** Order of delivery *)

(** The stream of [c] is open: its generator is suspended inside the loop,
    on the queue that the registry holds for [c], and [pending] are the
    events posted and not yet delivered, oldest first. *)
Definition subscribed (c : string) (g : Generator) (st : State)
    (pending : list Event) : Prop :=
  client_id g = c
  ∧ ∃ q, client_connections st !! c = Some q
         ∧ queues st !! q = Some (Some <$> pending)
         ∧ (position g = AtYield ∨ position g = AtGet q).

(** The events that a schedule posts to [c], in the order of the posts. *)
Fixpoint published (c : string) (schedule : list Action) : list Event :=
  match schedule with
  | [] => []
  | Next :: rest => published c rest
  | Send c' data :: rest =>
      if decide (c' = c) then event_of json_dumps data :: published c rest
      else published c rest
  end.

Lemma subscribe c st :
  wf st →
  ∃ g1 g2 st2,
    resume json_dumps (sse_endpoint c) st = (Yield (connected json_dumps c), g1, st)
    ∧ resume json_dumps g1 st = (Pending, g2, st2)
    ∧ wf st2 ∧ subscribed c g2 st2 [].
Proof.
  intros Hwf. do 3 eexists. split; [reflexivity |].
  unfold resume, loop, get. simpl.
  rewrite lookup_insert_eq. simpl. rewrite lookup_insert_eq.
  split; [reflexivity |]. split; [by apply wf_register |].
  split; [done |]. eexists. simpl. rewrite !lookup_insert_eq. eauto.
Qed.

Lemma next_pending c g st :
  subscribed c g st [] →
  ∃ g', resume json_dumps g st = (Pending, g', st) ∧ subscribed c g' st [].
Proof.
  intros (Hc & q & Hq & Hitems & Hp). simpl in Hitems.
  exists {| client_id := client_id g; position := AtGet q |}.
  split.
  - unfold resume, loop. destruct Hp as [-> | ->]; unfold get;
      rewrite ?Hc, ?Hq, Hitems; reflexivity.
  - split; [done |]. exists q. simpl. auto.
Qed.

Lemma next_yields c g st e pending :
  wf st → subscribed c g st (e :: pending) →
  ∃ g' st', resume json_dumps g st = (Yield e, g', st')
            ∧ wf st' ∧ subscribed c g' st' pending.
Proof.
  intros [Hd Hi] (Hc & q & Hq & Hitems & Hp). simpl in Hitems.
  exists {| client_id := client_id g; position := AtYield |}.
  exists {| queues := <[q := Some <$> pending]> (queues st);
            client_connections := client_connections st |}.
  split; [| split].
  - unfold resume, loop. destruct Hp as [-> | ->]; unfold get;
      rewrite ?Hc, ?Hq, Hitems; reflexivity.
  - split; simpl; [| exact Hi]. intros c' q' H. rewrite dom_insert_L.
    apply elem_of_union_r. by eapply Hd.
  - split; [done |]. exists q. simpl. rewrite lookup_insert_eq. auto.
Qed.

Lemma send_subscribed c g st pending c' data :
  wf st → subscribed c g st pending →
  subscribed c g (send_to_client json_dumps c' data st).2
    (if decide (c' = c) then pending ++ [event_of json_dumps data]
     else pending)%list.
Proof.
  intros [Hd Hi] (Hc & q & Hq & Hitems & Hp). split; [done |]. exists q.
  unfold send_to_client. destruct (decide (c' = c)) as [-> | Hne].
  - rewrite Hq. simpl. rewrite Hitems. simpl. rewrite lookup_insert_eq.
    rewrite fmap_app. auto.
  - destruct (client_connections st !! c') as [q'|] eqn:Hq'; simpl; [| auto].
    rewrite lookup_insert_ne; [auto |]. intros ->. apply Hne. by eapply Hi.
Qed.

Lemma run_app s1 s2 g st :
  run json_dumps (s1 ++ s2) g st
  = let '(d1, g1, st1) := run json_dumps s1 g st in
    let '(d2, g2, st2) := run json_dumps s2 g1 st1 in
    ((d1 ++ d2)%list, g2, st2).
Proof.
  revert g st. induction s1 as [|[|c d] s1 IH]; intros g st; simpl.
  - by destruct (run json_dumps s2 g st) as [[? ?] ?].
  - destruct (resume json_dumps g st) as [[o g'] st']. rewrite IH.
    destruct (run json_dumps s1 g' st') as [[d1 g1] st1].
    destruct (run json_dumps s2 g1 st1) as [[d2 g2] st2].
    by destruct o.
  - apply IH.
Qed.

(** Along any schedule, what has been delivered and what is still queued
    make up, in this order, what was queued and what has been posted. *)
Lemma run_fifo c schedule g st pending delivered g' st' :
  wf st → subscribed c g st pending →
  run json_dumps schedule g st = (delivered, g', st') →
  ∃ pending', wf st' ∧ subscribed c g' st' pending'
              ∧ (pending ++ published c schedule
                 = delivered ++ pending')%list.
Proof.
  revert g st pending delivered.
  induction schedule as [|[|c' d] rest IH]; intros g st pending delivered Hwf Hs;
    simpl.
  - intros [= <- <- <-]. exists pending. by rewrite app_nil_r.
  - destruct pending as [|e pending].
    + destruct (next_pending c g st Hs) as (g1 & -> & Hs1).
      destruct (run json_dumps rest g1 st) as [[evs g2] st2] eqn:Hr.
      intros [= <- <- <-]. by eapply IH.
    + destruct (next_yields c g st e pending Hwf Hs) as (g1 & st1 & -> & Hwf1 & Hs1).
      destruct (run json_dumps rest g1 st1) as [[evs g2] st2] eqn:Hr.
      intros [= <- <- <-].
      destruct (IH _ _ _ _ Hwf1 Hs1 Hr) as (pending' & ? & ? & E).
      exists pending'. simpl. by rewrite E.
  - intros Hr.
    destruct (IH _ _ _ _ (wf_send c' d st Hwf)
                (send_subscribed c g st pending c' d Hwf Hs) Hr)
      as (pending' & ? & ? & E).
    exists pending'. split; [done |]. split; [done |]. rewrite <- E.
    destruct (decide (c' = c)); [by rewrite <- app_assoc | done].
Qed.

(** What is queued is delivered, in order, to a consumer that keeps
    asking. *)
Lemma run_drain c g st pending :
  wf st → subscribed c g st pending →
  ∃ g' st', run json_dumps (replicate (length pending) Next) g st
            = (pending, g', st')
            ∧ wf st' ∧ subscribed c g' st' [].
Proof.
  revert g st. induction pending as [|e pending IH]; intros g st Hwf Hs; simpl.
  - by exists g, st.
  - destruct (next_yields c g st e pending Hwf Hs) as (g1 & st1 & -> & Hwf1 & Hs1).
    destruct (IH g1 st1 Hwf1 Hs1) as (g' & st' & -> & ? & ?).
    by exists g', st'.
Qed.

(** Whatever a new stream delivers first, along any schedule of posts and
    requests, is the item of its first [yield]. *)
Lemma run_first schedule g st e :
  position g = Created →
  head (run json_dumps schedule g st).1.1 = Some e →
  resume json_dumps g st = (Yield e, {| client_id := client_id g;
                                        position := AtConnected |}, st).
Proof.
  intros Hg. revert st. induction schedule as [|[|c' d] rest IH]; intros st.
  - discriminate.
  - simpl. destruct (resume json_dumps g st) as [[out g'] st'] eqn:Hr.
    unfold resume in Hr. rewrite Hg in Hr. injection Hr as <- <- <-.
    destruct (run json_dumps rest _ st) as [[evs g''] st'']. simpl.
    by intros [= <-].
  - simpl. intros H%IH. unfold resume in *. rewrite Hg in *.
    by injection H as <-.
Qed.

(** C5. The first item of the stream of [c] is an event named
    ["connected"] whose id is the client id [c] and whose data is the
    serialized object with the status ["connected"] and the client id;
    whatever the schedule of posts and requests, no other item is ever
    delivered first. The next request for an item registers the queue and
    waits. From then on delivery follows the order of the posts: after a
    post of [d1] and a post of [d2] the consumer receives the event of [d1]
    and then the event of [d2]; and along any schedule of posts and
    requests the events received are an initial part of the events posted
    to [c], the rest being received, in order, by the requests that
    follow. *)
Theorem C5_delivery_order c st :
  wf st →
  ∃ e g1 g2 st2,
    resume json_dumps (sse_endpoint c) st = (Yield e, g1, st)
    ∧ event e = AVal (PStr "connected")
    ∧ id e = AVal (PStr c)
    ∧ data e = json_dumps (AObj (<["status" := PStr "connected"]>
                                (<["client_id" := PStr c]> ∅)))
    ∧ (∀ schedule e',
         head (run json_dumps schedule (sse_endpoint c) st).1.1 = Some e' →
         e' = e)
    ∧ resume json_dumps g1 st = (Pending, g2, st2)
    ∧ (∀ d1 d2,
         (run json_dumps [Send c d1; Send c d2; Next; Next] g2 st2).1.1
         = [event_of json_dumps d1; event_of json_dumps d2])
    ∧ (∀ schedule, ∃ pending,
         published c schedule
         = ((run json_dumps schedule g2 st2).1.1 ++ pending)%list
         ∧ (run json_dumps (schedule ++ replicate (length pending) Next)
              g2 st2).1.1
           = published c schedule).
Proof.
  intros Hwf.
  destruct (subscribe c st Hwf) as (g1 & g2 & st2 & H1 & H2 & Hwf2 & Hs2).
  exists (connected json_dumps c), g1, g2, st2.
  split; [exact H1 |]. do 3 (split; [reflexivity |]).
  split.
  { intros schedule e' H%run_first; [| reflexivity].
    rewrite H1 in H. by injection H as <-. }
  split; [exact H2 |].
  assert (Hall : ∀ schedule, ∃ pending,
    published c schedule
    = ((run json_dumps schedule g2 st2).1.1 ++ pending)%list
    ∧ (run json_dumps (schedule ++ replicate (length pending) Next)
         g2 st2).1.1
      = published c schedule).
  { intros schedule.
    destruct (run json_dumps schedule g2 st2) as [[delivered g'] st'] eqn:Hr.
    destruct (run_fifo c schedule g2 st2 [] delivered g' st' Hwf2 Hs2 Hr)
      as (pending & Hwf' & Hs' & E).
    exists pending. simpl in *. split; [exact E |].
    rewrite run_app, Hr.
    destruct (run_drain c g' st' pending Hwf' Hs') as (g'' & st'' & -> & _).
    simpl. by rewrite E. }
  split; [| exact Hall].
  intros d1 d2.
  destruct (Hall [Send c d1; Send c d2]) as (pending & E & Hrun).
  simpl in E. rewrite !decide_True in E by done. subst pending.
  simpl in Hrun. rewrite !decide_True in Hrun by done. exact Hrun.
Qed.

End Channel.

(** *** The theorems on a fresh server

    The registry is empty at start-up; the payloads are left unserialized. *)

Definition start : State := {| queues := ∅; client_connections := ∅ |}.

Definition unserialized (v : argval) : string := "<json>".

Definition post (n : Z) : Body :=
  {| address := n; fields := <["event" := AVal (PStr "tick")]> ∅ |}.

Lemma C4_send_to_client_witness :
  wf start
  ∧ send_to_client unserialized "dashboard" (post 1) start
    = (Raise (HTTPException 404 "Client dashboard not connected"), start).
Proof.
  split; [exact wf_empty |].
  destruct (C4_send_to_client unserialized "dashboard" (post 1) start wf_empty)
    as [H _].
  exact (H eq_refl).
Defined.

Lemma C5_delivery_order_witness :
  wf start
  ∧ (run unserialized
       [Next; Next; Send "dashboard" (post 1); Send "dashboard" (post 2);
        Next; Next]
       (sse_endpoint "dashboard") start).1.1
    = [ {| event := AVal (PStr "connected"); id := AVal (PStr "dashboard");
           data := "<json>" |};
        {| event := AVal (PStr "tick"); id := AVal (PStr "1");
           data := "<json>" |};
        {| event := AVal (PStr "tick"); id := AVal (PStr "2");
           data := "<json>" |} ].
Proof.
  split; [exact wf_empty |].
  destruct (C5_delivery_order unserialized "dashboard" start wf_empty)
    as (e & g1 & g2 & st2 & H1 & He & Hi & Hd & _ & H2 & H12 & _).
  specialize (H12 (post 1) (post 2)).
  assert (Hnext : ∀ rest g st,
    run unserialized (Next :: rest) g st
    = let '(out, g', st') := resume unserialized g st in
      let '(evs, g'', st'') := run unserialized rest g' st' in
      (match out with Yield e => e :: evs | _ => evs end, g'', st''))
    by reflexivity.
  rewrite Hnext, H1. cbv beta iota. rewrite Hnext, H2. cbv beta iota.
  destruct (run unserialized _ g2 st2) as [[evs g'] st'].
  simpl in H12. rewrite H12.
  destruct e as [ev i d]. simpl in He, Hi, Hd. subst ev i d. reflexivity.
Defined.

(** A stream from connection to close: the posts are delivered in order,
    a client that is not connected is refused, and so is the client itself
    after the consumer has gone. *)
Example stream_trace :
  let '(evs, g, st) :=
    run unserialized
      [Next; Next; Send "dashboard" (post 1); Send "other" (post 7);
       Send "dashboard" (post 2); Next; Next; Next]
      (sse_endpoint "dashboard") start in
  evs = [connected unserialized "dashboard";
         event_of unserialized (post 1); event_of unserialized (post 2)]
  ∧ (send_to_client unserialized "other" (post 7) st).1
    = Raise (HTTPException 404 "Client other not connected")
  ∧ (send_to_client unserialized "dashboard" (post 3) (cancel g st).2).1
    = Raise (HTTPException 404 "Client dashboard not connected").
Proof. vm_compute. repeat split. Qed.

End BrokerProps.

(* ===================================================================== *)
(** * Part III: further properties of the tools and the server *)
(* ===================================================================== *)

Local Open Scope list_scope.

(** ** Comprehensions that raise *)

Lemma mapM_Raise {A B} (f : A → exc B) (l : list A) (x : A) :
  x ∈ l → (∀ y, f x ≠ Ok y) → ∃ e, mapM f l = Raise e.
Proof.
  intros Hin Hx. induction l as [|a l IH]; [by apply elem_of_nil in Hin |].
  simpl. destruct (f a) as [b|e] eqn:Ha; simpl; [| by eexists].
  apply elem_of_cons in Hin as [-> | Hin]; [by destruct (Hx b) |].
  destruct (IH Hin) as [e ->]. by eexists.
Qed.

Lemma mapM_length {A B} (f : A → exc B) (l : list A) (k : list B) :
  mapM f l = Ok k → length k = length l.
Proof. rewrite mapM_Ok. intros H. symmetry. by eapply Forall2_length. Qed.

(** ** The DHCP tool: normalization, rejected leases and the summary *)

Module DHCPExtra.
Import DHCPTool DHCPProps.

(** The fields of the lease model. *)
Definition lease_fields : gset string :=
  {[ "ip"; "mac"; "hostname"; "start"; "end"; "online"; "lease_type";
     "description"; "actual_status" ]}.

(** [_normalize_lease_entry] renames ["address"] to ["ip"] when there is no
    ["ip"], touches no other key, and normalizing twice changes nothing
    more. When both keys are present both stay. *)
Theorem normalize_lease_entry_renames entry :
  _normalize_lease_entry (_normalize_lease_entry entry)
  = _normalize_lease_entry entry
  ∧ (∀ k, k ≠ "ip" → k ≠ "address" →
       _normalize_lease_entry entry !! k = entry !! k)
  ∧ _normalize_lease_entry entry !! "ip"
    = match entry !! "ip" with
      | Some v => Some v
      | None => entry !! "address"
      end
  ∧ _normalize_lease_entry entry !! "address"
    = match entry !! "ip" with
      | Some _ => entry !! "address"
      | None => None
      end.
Proof.
  unfold _normalize_lease_entry.
  destruct (entry !! "address") as [a|] eqn:Ha;
    destruct (entry !! "ip") as [i|] eqn:Hi.
  - rewrite ?Ha, ?Hi. repeat split; done.
  - rewrite lookup_insert_eq, lookup_insert_ne, lookup_delete_eq by done.
    repeat split; try done.
    intros k H1 H2. by rewrite lookup_insert_ne, lookup_delete_ne.
  - rewrite ?Ha, ?Hi. repeat split; done.
  - rewrite ?Ha, ?Hi. repeat split; done.
Qed.

Lemma normalize_mac entry :
  _normalize_lease_entry entry !! "mac" = entry !! "mac".
Proof. by apply normalize_lease_entry_renames. Qed.

Lemma process_lease_Ok validate_bool ips macs entry out :
  process_lease validate_bool ips macs entry = Ok out →
  dom out = lease_fields
  ∧ out !! "ip" = _normalize_lease_entry entry !! "ip"
  ∧ out !! "mac" = entry !! "mac"
  ∧ ARPProps.is_str (out !! "ip") ∧ ARPProps.is_str (out !! "mac").
Proof.
  unfold process_lease, DHCPLease_model_dump. rewrite validated_Ok. intros H.
  apply bind_Some in H as (ip & Hip%ARPProps.required_str_Some & H).
  apply bind_Some in H as (mac & Hmac%ARPProps.required_str_Some & H).
  repeat (apply bind_Some in H as (? & _ & H)).
  injection H as <-.
  destruct Hip as [Hip Sip], Hmac as [Hmac Smac].
  rewrite lookup_insert_ne in Hip, Hmac by done.
  rewrite normalize_mac in Hmac.
  split; [| by rewrite lookup_insert_eq, lookup_insert_ne, lookup_insert_eq].
  rewrite !dom_insert_L, dom_empty_L. unfold lease_fields. set_solver.
Qed.

(** The entries that the tool returns have exactly the fields of the
    model: a key ["address"] is never returned, nor any other key of the
    row; the address comes back under ["ip"] and, like the MAC, is a
    string. *)
Theorem returned_lease_fields validate_bool client params r out :
  execute validate_bool (Some client) params = Ok r →
  out ∈ dhcpv4 r ++ dhcpv6 r →
  dom out = lease_fields
  ∧ ARPProps.is_str (out !! "ip") ∧ ARPProps.is_str (out !! "mac").
Proof.
  unfold execute, execute_try. intros He Hin.
  destruct (get_dhcpv4_leases client) as [l4|]; simpl in He;
    [| injection He as <-; by apply elem_of_nil in Hin].
  destruct (get_dhcpv6_leases client) as [l6|]; simpl in He;
    [| injection He as <-; by apply elem_of_nil in Hin].
  destruct (get_arp_table client) as [a|]; simpl in He;
    [| injection He as <-; by apply elem_of_nil in Hin].
  destruct (get_ndp_table client) as [n|]; simpl in He;
    [| injection He as <-; by apply elem_of_nil in Hin].
  destruct (mapM _ l4) as [o4|] eqn:M4; simpl in He;
    [| injection He as <-; by apply elem_of_nil in Hin].
  destruct (mapM _ l6) as [o6|] eqn:M6; simpl in He;
    [| injection He as <-; by apply elem_of_nil in Hin].
  injection He as <-. simpl in Hin.
  apply mapM_Ok in M4, M6.
  apply elem_of_app in Hin as [Hin | Hin];
    apply list_elem_of_lookup in Hin as [i Hi].
  - destruct (Forall2_lookup_r _ _ _ _ _ M4 Hi) as (row & _ & Hrow).
    apply process_lease_Ok in Hrow. tauto.
  - destruct (Forall2_lookup_r _ _ _ _ _ M6 Hi) as (row & _ & Hrow).
    apply process_lease_Ok in Hrow. tauto.
Qed.

Lemma process_lease_rejects validate_bool ips macs entry :
  ¬ ARPProps.is_str (entry !! "mac") →
  ∀ out, process_lease validate_bool ips macs entry ≠ Ok out.
Proof.
  intros Hmac out H. apply process_lease_Ok in H as (_ & _ & Hm & _ & Hs).
  apply Hmac. by rewrite <- Hm.
Qed.

(** The answer in case of an error: both lists empty. *)
Definition is_error (r : Result) : Prop :=
  status r = "error" ∧ dhcpv4 r = [] ∧ dhcpv6 r = []
  ∧ ∃ msg, dhcp_status r = Some ("Error retrieving DHCP leases: " +:+ msg).

(** One lease without a MAC that is a string, among the DHCPv4 or the
    DHCPv6 leases, and the tool returns no lease at all: the answer is the
    error answer, with both lists empty. *)
Theorem rejected_lease_empties_answer validate_bool client params
    leases_v4 leases_v6 lease :
  get_dhcpv4_leases client = Ok leases_v4 →
  get_dhcpv6_leases client = Ok leases_v6 →
  lease ∈ leases_v4 ++ leases_v6 →
  ¬ ARPProps.is_str (lease !! "mac") →
  ∃ r, execute validate_bool (Some client) params = Ok r ∧ is_error r.
Proof.
  intros H4 H6 Hin Hmac. unfold execute, execute_try. rewrite H4, H6. simpl.
  assert (Herr : ∀ e, is_error
    {| dhcpv4 := []; dhcpv6 := []; status := "error";
       dhcp_status := Some ("Error retrieving DHCP leases: " +:+ exn_str e) |}).
  { intros e. repeat split. by eexists. }
  destruct (get_arp_table client) as [a|]; simpl; [| by eexists].
  destruct (get_ndp_table client) as [n|]; simpl; [| by eexists].
  apply elem_of_app in Hin as [Hin | Hin].
  - destruct (mapM_Raise
                (process_lease validate_bool (neighbor_set "ip" a)
                   (neighbor_set "mac" a)) leases_v4 lease Hin) as [e ->];
      [by apply process_lease_rejects |]. simpl. by eexists.
  - destruct (mapM _ leases_v4); simpl; [| by eexists].
    destruct (mapM_Raise
                (process_lease validate_bool (neighbor_set "ip" n)
                   (neighbor_set "mac" n)) leases_v6 lease Hin) as [e ->];
      [by apply process_lease_rejects |]. simpl. by eexists.
Qed.

Definition nameless_lease : gmap string pyval :=
  <["ip" := PStr "10.0.0.9"]> (<["hostname" := PStr "printer"]> ∅).

Lemma rejected_lease_empties_answer_witness :
  ∃ r, execute strict_bool
         (Some {| get_arp_table := Ok lan_arp_table;
                  get_ndp_table := Ok [];
                  get_dhcpv4_leases := Ok [stale_lease; nameless_lease];
                  get_dhcpv6_leases := Ok [];
                  resolve_host_info := None;
                  get_system_status := Ok ∅ |}) ∅ = Ok r
       ∧ is_error r.
Proof.
  eapply (rejected_lease_empties_answer strict_bool _ ∅
            [stale_lease; nameless_lease] [] nameless_lease).
  - reflexivity.
  - reflexivity.
  - apply elem_of_app. left. apply elem_of_cons. right. apply elem_of_cons.
    by left.
  - intros [s Hs]. vm_compute in Hs. discriminate.
Defined.

(** The answer of the tool has one of two shapes. Either it succeeded:
    then it returns one entry for every lease of either table, and its
    summary is "OK" exactly when there is a lease at all. Or it is the
    error answer. *)
Theorem answer_shapes validate_bool client params r :
  execute validate_bool (Some client) params = Ok r →
  (status r = "success"
   ∧ (∃ leases_v4 leases_v6,
        get_dhcpv4_leases client = Ok leases_v4
        ∧ get_dhcpv6_leases client = Ok leases_v6
        ∧ length (dhcpv4 r) = length leases_v4
        ∧ length (dhcpv6 r) = length leases_v6)
   ∧ (dhcp_status r = Some "OK" ↔ dhcpv4 r ++ dhcpv6 r ≠ [])
   ∧ (dhcp_status r
      = Some "No DHCP leases found. Check DHCP server status, configuration, and API permissions."
      ↔ dhcpv4 r ++ dhcpv6 r = []))
  ∨ is_error r.
Proof.
  unfold execute, execute_try. intros He.
  assert (Herr : ∀ e, is_error
    {| dhcpv4 := []; dhcpv6 := []; status := "error";
       dhcp_status := Some ("Error retrieving DHCP leases: " +:+ exn_str e) |}).
  { intros e. repeat split. by eexists. }
  destruct (get_dhcpv4_leases client) as [l4|]; simpl in He;
    [| injection He as <-; by right].
  destruct (get_dhcpv6_leases client) as [l6|]; simpl in He;
    [| injection He as <-; by right].
  destruct (get_arp_table client) as [a|]; simpl in He;
    [| injection He as <-; by right].
  destruct (get_ndp_table client) as [n|]; simpl in He;
    [| injection He as <-; by right].
  destruct (mapM _ l4) as [o4|] eqn:M4; simpl in He;
    [| injection He as <-; by right].
  destruct (mapM _ l6) as [o6|] eqn:M6; simpl in He;
    [| injection He as <-; by right].
  injection He as <-. left. simpl. split; [done |].
  apply mapM_length in M4, M6. split; [by exists l4, l6 |].
  destruct o4 as [|x o4]; [destruct o6 as [|y o6] |]; simpl; split; split;
    try done; intros [=].
Qed.

Lemma returned_lease_fields_witness :
  ∃ r out, execute strict_bool (Some lan_client) ∅ = Ok r
           ∧ out ∈ dhcpv4 r ++ dhcpv6 r
           ∧ dom out = lease_fields
           ∧ ARPProps.is_str (out !! "ip") ∧ ARPProps.is_str (out !! "mac").
Proof.
  destruct (execute strict_bool (Some lan_client) ∅) as [r|] eqn:Hr;
    [| vm_compute in Hr; discriminate].
  assert (Hin : ∃ out, out ∈ dhcpv4 r ++ dhcpv6 r).
  { vm_compute in Hr. injection Hr as <-. eexists. apply elem_of_cons.
    by left. }
  destruct Hin as [out Hin]. exists r, out. split; [done |]. split; [done |].
  exact (returned_lease_fields strict_bool lan_client ∅ r out Hr Hin).
Defined.

Lemma answer_shapes_witness :
  ∃ r, execute strict_bool (Some lan_client) ∅ = Ok r
       ∧ status r = "success" ∧ dhcp_status r = Some "OK".
Proof.
  destruct (execute strict_bool (Some lan_client) ∅) as [r|] eqn:Hr;
    [| vm_compute in Hr; discriminate].
  exists r. split; [done |].
  destruct (answer_shapes strict_bool lan_client ∅ r Hr)
    as [(Hs & _ & Hok & _) | (He & _)].
  - split; [done |]. apply Hok. vm_compute in Hr. injection Hr as <-. done.
  - vm_compute in Hr. injection Hr as <-. discriminate.
Defined.

End DHCPExtra.

(** ** The ARP tool: status, fixture, tokens and filters *)

Module ARPExtra.
Import ARPTool ARPProps.

Lemma lower_of_filter_member l tokens s :
  mapM lower_of (List.filter truthy l) = Ok tokens →
  s ≠ "" → In (PStr s) l → In (lower s) tokens.
Proof.
  revert tokens. induction l as [|v l IH]; intros tokens; simpl; [tauto |].
  destruct (truthy v) eqn:Hv.
  - simpl. intros H Hs Hin. apply bind_Ok in H as (t & Ht & H).
    apply bind_Ok in H as (ts & Hts & [= <-]).
    destruct Hin as [-> | Hin]; [injection Ht as <-; by left |].
    right. by apply IH.
  - intros H Hs [-> | Hin]; [| by apply IH].
    simpl in Hv. apply String.eqb_neq in Hs. by rewrite Hs in Hv.
Qed.

(** The token set of a search holds the query itself, lower-cased,
    whatever [resolve_host_info] adds to it; without [resolve_host_info]
    the query is the only token. *)
Theorem tokens_contain_query client s tokens :
  s ≠ "" →
  resolve_queries client (PStr s) = Ok tokens →
  In (lower s) tokens
  ∧ (resolve_host_info client = None → tokens = [lower s]).
Proof.
  intros Hs. unfold resolve_queries.
  destruct (resolve_host_info client) as [resolve|].
  - intros H. split; [| done].
    repeat (apply bind_Ok in H as (? & _ & H)).
    eapply lower_of_filter_member; [exact H | done |]. by left.
  - simpl. apply String.eqb_neq in Hs. rewrite Hs. simpl.
    intros [= <-]. split; [by left | done].
Qed.

Lemma tokens_contain_query_witness :
  In (lower "Trogdor") ["trogdor"]
  ∧ (resolve_host_info (trogdor_client false) = None →
     ["trogdor"] = [lower "Trogdor"]).
Proof.
  apply (tokens_contain_query (trogdor_client false) "Trogdor" ["trogdor"]).
  - discriminate.
  - reflexivity.
Defined.

Section Execute.
Variable oui_lookup : pyval → pyval.
Variables validate_int validate_bool : pyval → option pyval.

Lemma execute_try_status client params r :
  execute_try oui_lookup validate_int validate_bool client params = Ok r →
  status r = "success".
Proof.
  unfold execute_try. intros H.
  repeat (apply bind_Ok in H as (? & _ & H)).
  destruct (truthy (py_get params "search")).
  - apply bind_Ok in H as (stripped & _ & H). destruct (_ || _).
    + by apply fmap_Ok in H as (? & _ & <-).
    + repeat (apply bind_Ok in H as (? & _ & H)). by injection H as <-.
  - apply bind_Ok in H as (? & _ & H). by apply fmap_Ok in H as (? & _ & <-).
Qed.

(** The tool always answers, and always with the status "success": with
    or without a client, and also when the collaborator fails or a row is
    rejected and the fixture is returned in place of the tables. *)
Theorem status_is_always_success (client : option Client)
    (params : gmap string pyval) :
  ∃ r, execute oui_lookup validate_int validate_bool client params = Ok r
       ∧ status r = "success".
Proof.
  unfold execute. destruct client as [c|]; [| by eexists].
  destruct (execute_try _ _ _ c params) as [r|e] eqn:Hr; simpl.
  - exists r. split; [done |]. by eapply execute_try_status.
  - by eexists.
Qed.

(** A search that strips to the wildcard or to nothing returns the full
    tables, also when filters are given with it: the answer is that of the
    call without any argument. *)
Theorem wildcard_ignores_filters (client : option Client)
    (params : gmap string pyval) (s : string) :
  py_get params "search" = PStr s → s ≠ "" →
  strip s = "*" ∨ strip s = "" →
  execute oui_lookup validate_int validate_bool client params
  = execute oui_lookup validate_int validate_bool client ∅.
Proof.
  intros Hs Hne Hw. destruct client as [c|]; [| done]. unfold execute.
  rewrite (execute_try_wildcard _ _ _ c params s Hs Hne Hw).
  by rewrite execute_try_no_search.
Qed.

(** A search argument that is true and not a string, a number say, gives
    the fixture. *)
Theorem search_not_a_string (client : option Client)
    (params : gmap string pyval) :
  truthy (py_get params "search") = true →
  (∀ s, py_get params "search" ≠ PStr s) →
  execute oui_lookup validate_int validate_bool client params
  = Ok _get_dummy_data.
Proof.
  intros Ht Hs. destruct client as [c|]; [| done].
  unfold execute, execute_try. rewrite Ht.
  destruct (get_dhcpv4_leases c); [simpl | done].
  destruct (get_dhcpv6_leases c); [simpl | done].
  destruct (add_leases _ _); [simpl | done].
  destruct (add_leases _ _); [simpl | done].
  destruct (py_get params "search") as [| | |s]; try done. by destruct (Hs s).
Qed.

End Execute.

Lemma wildcard_ignores_filters_witness :
  execute no_vendor strict_int strict_bool (Some two_hosts)
    (<["mac" := PStr "AA:BB:CC:DD:EE:FF"]> (<["search" := PStr "*"]> ∅))
  = execute no_vendor strict_int strict_bool (Some two_hosts) ∅.
Proof.
  apply (wildcard_ignores_filters no_vendor strict_int strict_bool
           (Some two_hosts) _ "*").
  - reflexivity.
  - discriminate.
  - by left.
Defined.

Lemma search_not_a_string_witness :
  execute no_vendor strict_int strict_bool (Some two_hosts)
    (<["search" := PInt 42]> ∅)
  = Ok _get_dummy_data.
Proof.
  apply (search_not_a_string no_vendor strict_int strict_bool).
  - reflexivity.
  - intros s. vm_compute. discriminate.
Defined.

(** *** Filters and rejected rows *)

(** An exact filter: it is applied when its argument is true. *)
Definition filter_by (argument : pyval) (test : gmap string pyval → bool)
    (entries : list (gmap string pyval)) : list (gmap string pyval) :=
  if truthy argument then List.filter test entries else entries.

(** The test of the [ip] and [ipv6] filters: equality with the address. *)
Definition ip_equals (argument : pyval) (entry : gmap string pyval) : bool :=
  py_eqb (py_get_or entry "ip" (PStr "")) argument.

Section Filters.
Variable oui_lookup : pyval → pyval.
Variables validate_int validate_bool : pyval → option pyval.

Lemma unfiltered_tables client full :
  unfiltered oui_lookup validate_int validate_bool client = Ok full →
  ∃ leases_v4 leases_v6 m4 maps,
    get_dhcpv4_leases client = Ok leases_v4
    ∧ get_dhcpv6_leases client = Ok leases_v6
    ∧ add_leases ([], ∅) leases_v4 = Ok m4
    ∧ add_leases m4 leases_v6 = Ok maps
    ∧ full_tables oui_lookup validate_int validate_bool client maps
      = Ok (arp full, ndp full)
    ∧ Forall (λ out, is_str (out !! "mac")) (arp full)
    ∧ Forall (λ out, is_str (out !! "mac")) (ndp full).
Proof.
  unfold unfiltered. intros H.
  apply bind_Ok in H as (l4 & H4 & H). apply bind_Ok in H as (l6 & H6 & H).
  apply bind_Ok in H as (m4 & Hm4 & H). apply bind_Ok in H as (maps & Hm & H).
  apply fmap_Ok in H as ([a n] & Ht & <-).
  exists l4, l6, m4, maps. repeat (split; [done |]). simpl.
  unfold full_tables in Ht.
  apply bind_Ok in Ht as (? & _ & Ht). apply bind_Ok in Ht as (? & _ & Ht).
  apply bind_Ok in Ht as (oa & Ea & Ht).
  apply bind_Ok in Ht as (on & En & [= <- <-]).
  split; by eapply enrich_mac_str.
Qed.

(** Without a search, the three filters combine: an entry of the ARP
    list is returned when it passes the [mac] and the [ip] filter, an entry
    of the NDP list when it passes the [mac] and the [ipv6] filter. The
    [ip] filter does not touch the NDP list, nor the [ipv6] filter the ARP
    list, and a filter whose argument is empty is no filter. *)
Theorem filters_combine client params full :
  truthy (py_get params "search") = false →
  str_or_none (py_get params "mac") →
  unfiltered oui_lookup validate_int validate_bool client = Ok full →
  execute oui_lookup validate_int validate_bool (Some client) params
  = Ok {| arp := filter_by (py_get params "ip")
                   (ip_equals (py_get params "ip"))
                   (filter_by (py_get params "mac")
                      (mac_equals (py_str (py_get params "mac"))) (arp full));
          ndp := filter_by (py_get params "ipv6")
                   (ip_equals (py_get params "ipv6"))
                   (filter_by (py_get params "mac")
                      (mac_equals (py_str (py_get params "mac"))) (ndp full));
          status := "success" |}.
Proof.
  intros Hs Hmac Hfull.
  apply unfiltered_tables in Hfull
    as (l4 & l6 & m4 & maps & H4 & H6 & Hm4 & Hm & Ht & Fa & Fn).
  unfold execute, execute_try. rewrite H4, H6. simpl. rewrite Hm4. simpl.
  rewrite Hm. simpl. rewrite Hs, Ht. simpl.
  unfold apply_filters, filter_by.
  destruct Hmac as [-> | [m ->]]; simpl; [done |].
  destruct (String.eqb_spec m "") as [-> | Hne]; simpl; [done |].
  rewrite (filterM_pure _ (mac_equals m) (arp full));
    [| eapply Forall_impl; [exact Fa |]; intros ?; apply mac_matches_equals].
  simpl.
  rewrite (filterM_pure _ (mac_equals m) (ndp full));
    [| eapply Forall_impl; [exact Fn |]; intros ?; apply mac_matches_equals].
  reflexivity.
Qed.

(** Without a search every row is validated: one row of either table
    that the model rejects, one without an interface say, and the answer is
    the fixture, not the tables. *)
Theorem rejected_row_gives_fixture client params arp_data ndp_data row :
  truthy (py_get params "search") = false →
  get_arp_table client = Ok arp_data →
  get_ndp_table client = Ok ndp_data →
  row ∈ arp_data ++ ndp_data →
  ¬ valid_row validate_int validate_bool row →
  execute oui_lookup validate_int validate_bool (Some client) params
  = Ok _get_dummy_data.
Proof.
  intros Hs Ha Hn Hin Hrow. unfold execute, execute_try. rewrite Hs.
  destruct (get_dhcpv4_leases client); [simpl | done].
  destruct (get_dhcpv6_leases client); [simpl | done].
  destruct (add_leases _ _); [simpl | done].
  destruct (add_leases _ _) as [maps|]; [simpl | done].
  unfold full_tables. rewrite Ha, Hn. simpl.
  assert (Hrej : ∀ rows, row ∈ rows →
    ∃ e, enrich oui_lookup validate_int validate_bool maps rows = Raise e).
  { intros rows Hrows. unfold enrich. eapply mapM_Raise; [exact Hrows |].
    intros y H. apply bind_Ok in H as (d & Hd & _). apply Hrow. by exists d. }
  apply elem_of_app in Hin as [Hin | Hin];
    destruct (Hrej _ Hin) as [e He]; rewrite He; [done |].
  by destruct (enrich _ _ _ _ arp_data).
Qed.

End Filters.

Lemma filters_combine_witness :
  (λ r, (λ e, e !! "ip") <$> arp r)
    <$> execute no_vendor strict_int strict_bool (Some two_hosts)
          (<["mac" := PStr "AA:BB:00:00:00:01"]>
             (<["ip" := PStr "192.168.1.11"]> ∅))
  = Ok [Some (PStr "192.168.1.11")].
Proof.
  destruct (unfiltered no_vendor strict_int strict_bool two_hosts)
    as [full|] eqn:Hfull; [| vm_compute in Hfull; discriminate].
  rewrite (filters_combine no_vendor strict_int strict_bool two_hosts _ full);
    [| reflexivity | right; by eexists | exact Hfull].
  vm_compute in Hfull. injection Hfull as <-. vm_compute. reflexivity.
Defined.

Definition row_without_interface : gmap string pyval :=
  <["ip" := PStr "192.168.1.12"]> (<["mac" := PStr "aa:bb:00:00:00:02"]> ∅).

Lemma rejected_row_gives_fixture_witness :
  execute no_vendor strict_int strict_bool
    (Some {| get_arp_table := Ok [trogdor_entry; row_without_interface];
             get_ndp_table := Ok [];
             get_dhcpv4_leases := Ok [];
             get_dhcpv6_leases := Ok [];
             resolve_host_info := None;
             get_system_status := Ok ∅ |}) ∅
  = Ok _get_dummy_data.
Proof.
  eapply (rejected_row_gives_fixture no_vendor strict_int strict_bool _ ∅
            [trogdor_entry; row_without_interface] [] row_without_interface).
  - reflexivity.
  - reflexivity.
  - reflexivity.
  - apply elem_of_app. left. apply elem_of_cons. right. apply elem_of_cons.
    by left.
  - intros [d Hd]. vm_compute in Hd. discriminate.
Defined.

(** *** The DHCP maps and the enrichment of an entry *)

Lemma py_eqb_refl v : py_eqb v v = true.
Proof.
  destruct v as [|b|n|x]; simpl; [done | by destruct b | lia |].
  apply String.eqb_refl.
Qed.

Lemma add_leases_app maps l1 l2 :
  add_leases maps (l1 ++ l2)
  = maps' ← add_leases maps l1; add_leases maps' l2.
Proof.
  revert maps. induction l1 as [|x l1 IH]; intros maps; simpl; [done |].
  destruct (add_lease maps x); simpl; [apply IH | done].
Qed.

(** The maps hold, for an address and for a MAC, the lease that was added
    last: a lease is found under its address ([ip], or [address] when there
    is no [ip]) and under its MAC in lower case, whatever the leases before
    it were. *)
Theorem last_lease_wins maps leases lease maps' :
  add_leases maps (leases ++ [lease]) = Ok maps' →
  (truthy (py_or (py_get lease "ip") (py_get lease "address")) = true →
   ip_map_lookup maps'.1 (py_or (py_get lease "ip") (py_get lease "address"))
   = Some lease)
  ∧ (∀ m, py_get lease "mac" = PStr m → m ≠ "" →
       maps'.2 !! lower m = Some lease).
Proof.
  rewrite add_leases_app. intros H. apply bind_Ok in H as (maps0 & _ & H).
  simpl in H. apply bind_Ok in H as (maps1 & H & [= <-]).
  unfold add_lease in H. split.
  - intros Hip. rewrite Hip in H.
    assert (maps1.1 = (py_or (py_get lease "ip") (py_get lease "address"),
                       lease) :: maps0.1) as ->.
    { destruct (truthy (py_get lease "mac")).
      - apply bind_Ok in H as (? & _ & [= <-]). done.
      - by injection H as <-. }
    unfold ip_map_lookup. simpl. by rewrite py_eqb_refl.
  - intros m Hm Hne. rewrite Hm in H. simpl in H.
    apply String.eqb_neq in Hne. rewrite Hne in H. simpl in H.
    injection H as <-. simpl. apply lookup_insert_eq.
Qed.

Lemma last_lease_wins_witness :
  ∃ maps',
    add_leases ([], ∅)
      ([<["mac" := PStr "AA:BB:CC:00:11:22"]> ∅] ++ [trogdor_lease]) = Ok maps'
    ∧ ip_map_lookup maps'.1 (PStr "10.0.0.5") = Some trogdor_lease
    ∧ maps'.2 !! "aa:bb:cc:00:11:22" = Some trogdor_lease.
Proof.
  destruct (add_leases ([], ∅)
              ([<["mac" := PStr "AA:BB:CC:00:11:22"]> ∅] ++ [trogdor_lease]))
    as [maps'|] eqn:H; [| vm_compute in H; discriminate].
  exists maps'. split; [done |].
  destruct (last_lease_wins _ _ _ _ H) as [Hip Hmac]. split.
  - apply Hip. reflexivity.
  - apply (Hmac "aa:bb:cc:00:11:22"); [reflexivity | discriminate].
Defined.

(** The status of the lease that enrichment writes into an entry. *)
Definition lease_status (lease : gmap string pyval) : option pyval :=
  Some (PStr (if truthy (py_get lease "online") then "Online" else "Offline")).

Section Fill.
Variable oui_lookup : pyval → pyval.

Lemma fill_cases d ip_map mac_map d' :
  _fill_manufacturer_and_dhcp oui_lookup d ip_map mac_map = Ok d' →
  ∃ d1 (found : option (gmap string pyval)),
    (* the manufacturer step *)
    (∀ k, k ≠ "manufacturer" → d1 !! k = d !! k)
    ∧ (truthy (py_get d "manufacturer") = true → d1 = d)
    (* the lease looked up: by address first, then by MAC in lower case *)
    ∧ found
      = match (if truthy (py_get d "ip")
               then ip_map_lookup ip_map (py_get d "ip") else None) with
        | Some lease => Some lease
        | None =>
            match d !! "mac" with
            | Some (PStr m) =>
                if negb (String.eqb m "") then mac_map !! lower m else None
            | _ => None
            end
        end
    (* the result *)
    ∧ d' = match found with
           | Some info =>
               if dict_truthy info then
                 <["dhcp_status" := PStr (if truthy (py_get info "online")
                                          then "Online" else "Offline")]>
                   (if negb (truthy (py_get d1 "hostname"))
                       && truthy (py_or (py_get info "hostname")
                                        (py_get info "client-hostname"))
                    then <["hostname" :=
                            py_or (py_get info "hostname")
                                  (py_get info "client-hostname")]> d1
                    else d1)
               else d1
           | None => d1
           end.
Proof.
  unfold _fill_manufacturer_and_dhcp.
  set (d1 := if negb (truthy (py_get d "manufacturer")) then _ else d).
  assert (H1 : (∀ k, k ≠ "manufacturer" → d1 !! k = d !! k)
               ∧ (truthy (py_get d "manufacturer") = true → d1 = d)).
  { subst d1. destruct (truthy (py_get d "manufacturer")); simpl; [done |].
    split; [| done]. intros k Hk.
    destruct (truthy _); [by rewrite lookup_insert_ne | done]. }
  clearbody d1. destruct H1 as [Hk Hm].
  assert (Hip : py_get d1 "ip" = py_get d "ip")
    by (unfold py_get; by rewrite Hk).
  assert (Hg : py_get d1 "mac" = default PNone (d !! "mac"))
    by (unfold py_get; by rewrite Hk).
  assert (Hg' : py_get_or d1 "mac" (PStr "") = default (PStr "") (d !! "mac"))
    by (unfold py_get_or; by rewrite Hk).
  rewrite Hip, Hg, Hg'.
  intros H. exists d1. eexists. split; [done |]. split; [done |].
  split; [reflexivity |].
  assert (Hfin : ∀ found r,
    match found with
    | Some info =>
        if dict_truthy info then mret (r info) else mret d1
    | None => mret d1
    end = Ok d' →
    d' = match found with
         | Some info => if dict_truthy info then r info else d1
         | None => d1
         end).
  { intros [info|] r; [destruct (dict_truthy info) |]; by intros [= <-]. }
  destruct (d !! "mac") as [[|b|n|m]|]; simpl in H.
  - by apply Hfin in H.
  - destruct b; simpl in H; [discriminate |]. by apply Hfin in H.
  - destruct (negb (n =? 0)); simpl in H; [discriminate |].
    by apply Hfin in H.
  - destruct (negb (String.eqb m "")) eqn:Hm0; simpl in H.
    + assert (Hl : negb (String.eqb (lower m) "") = true)
        by (destruct m; done).
      rewrite Hl in H. by apply Hfin in H.
    + by apply Hfin in H.
  - by apply Hfin in H.
Qed.

(** Enrichment adds to an entry and overwrites nothing that is known: a
    manufacturer and a hostname that the entry has are kept, and only the
    keys [manufacturer], [hostname] and [dhcp_status] can change. *)
Theorem enrichment_keeps_known_fields d ip_map mac_map d' :
  _fill_manufacturer_and_dhcp oui_lookup d ip_map mac_map = Ok d' →
  (∀ k, k ≠ "manufacturer" → k ≠ "hostname" → k ≠ "dhcp_status" →
     d' !! k = d !! k)
  ∧ (truthy (py_get d "manufacturer") = true →
     d' !! "manufacturer" = d !! "manufacturer")
  ∧ (truthy (py_get d "hostname") = true →
     d' !! "hostname" = d !! "hostname").
Proof.
  intros H. apply fill_cases in H as (d1 & found & Hk & Hm & _ & ->).
  assert (Hother : ∀ k, k ≠ "hostname" → k ≠ "dhcp_status" →
    match found with
    | Some info =>
        if dict_truthy info then
          <["dhcp_status" := PStr (if truthy (py_get info "online")
                                   then "Online" else "Offline")]>
            (if negb (truthy (py_get d1 "hostname"))
                && truthy (py_or (py_get info "hostname")
                                 (py_get info "client-hostname"))
             then <["hostname" :=
                     py_or (py_get info "hostname")
                           (py_get info "client-hostname")]> d1
             else d1)
        else d1
    | None => d1
    end !! k = d1 !! k).
  { intros k H1 H2. destruct found as [info|]; [| done].
    destruct (dict_truthy info); [| done]. rewrite lookup_insert_ne by done.
    destruct (_ && _); [by rewrite lookup_insert_ne | done]. }
  split; [| split].
  - intros k H1 H2 H3. rewrite Hother by done. by apply Hk.
  - intros Ht. rewrite Hother by done. by rewrite (Hm Ht).
  - intros Ht.
    assert (Hh : py_get d1 "hostname" = py_get d "hostname")
      by (unfold py_get; by rewrite Hk).
    rewrite Hh, Ht. simpl. destruct found as [info|]; [| by apply Hk].
    destruct (dict_truthy info); [| by apply Hk].
    rewrite lookup_insert_ne by done. by apply Hk.
Qed.

(** Where the DHCP status of an entry comes from: from the lease found
    under the address of the entry, if there is one, whatever the MAC map
    holds; else from the lease found under the MAC of the entry in lower
    case; and when neither is found the status is left as it was. *)
Theorem dhcp_status_source d ip_map mac_map d' :
  _fill_manufacturer_and_dhcp oui_lookup d ip_map mac_map = Ok d' →
  (∀ lease, truthy (py_get d "ip") = true →
     ip_map_lookup ip_map (py_get d "ip") = Some lease → lease ≠ ∅ →
     d' !! "dhcp_status" = lease_status lease)
  ∧ (∀ lease m,
       (truthy (py_get d "ip") = true →
        ip_map_lookup ip_map (py_get d "ip") = None) →
       d !! "mac" = Some (PStr m) → m ≠ "" →
       mac_map !! lower m = Some lease → lease ≠ ∅ →
       d' !! "dhcp_status" = lease_status lease)
  ∧ ((truthy (py_get d "ip") = true →
      ip_map_lookup ip_map (py_get d "ip") = None) →
     (∀ m, d !! "mac" = Some (PStr m) → mac_map !! lower m = None) →
     d' !! "dhcp_status" = d !! "dhcp_status").
Proof.
  intros H. apply fill_cases in H as (d1 & found & Hk & _ & Hfound & ->).
  assert (Htruthy : ∀ lease : gmap string pyval,
    lease ≠ ∅ → dict_truthy lease = true).
  { intros lease Hl. unfold dict_truthy. by rewrite bool_decide_eq_false_2. }
  split; [| split].
  - intros lease Ht Hl Hne. rewrite Ht, Hl in Hfound. subst found.
    rewrite (Htruthy lease Hne). apply lookup_insert_eq.
  - intros lease m Hip Hm Hne Hl Hle.
    assert (found = Some lease) as ->.
    { subst found. rewrite Hm. apply String.eqb_neq in Hne. rewrite Hne.
      simpl. rewrite Hl.
      destruct (truthy (py_get d "ip")); [by rewrite Hip | done]. }
    rewrite (Htruthy lease Hle). apply lookup_insert_eq.
  - intros Hip Hmac.
    assert (found = None) as ->; [| by apply Hk].
    subst found.
    destruct (truthy (py_get d "ip")); [rewrite Hip by done |];
      (destruct (d !! "mac") as [[| | |m]|] eqn:Hm; try done;
       destruct (negb _); [by apply Hmac | done]).
Qed.

End Fill.

Lemma enrichment_keeps_known_fields_witness :
  ∃ d', _fill_manufacturer_and_dhcp no_vendor
          (<["hostname" := PStr "gateway"]> trogdor_entry)
          [(PStr "10.0.0.5", trogdor_lease)] ∅ = Ok d'
        ∧ d' !! "hostname" = Some (PStr "gateway")
        ∧ d' !! "ip" = Some (PStr "10.0.0.5").
Proof.
  destruct (_fill_manufacturer_and_dhcp no_vendor
              (<["hostname" := PStr "gateway"]> trogdor_entry)
              [(PStr "10.0.0.5", trogdor_lease)] ∅) as [d'|] eqn:H;
    [| vm_compute in H; discriminate].
  exists d'. split; [done |].
  destruct (enrichment_keeps_known_fields no_vendor _ _ _ _ H)
    as (Hk & _ & Hh).
  split.
  - rewrite Hh; reflexivity.
  - rewrite Hk; done.
Defined.

Lemma dhcp_status_source_witness :
  ∃ d', _fill_manufacturer_and_dhcp no_vendor trogdor_entry
          [(PStr "10.0.0.5", trogdor_lease)]
          {["aa:bb:cc:00:11:22" := <["online" := PBool true]> trogdor_lease]}
        = Ok d'
        ∧ d' !! "dhcp_status" = Some (PStr "Offline").
Proof.
  destruct (_fill_manufacturer_and_dhcp no_vendor trogdor_entry
              [(PStr "10.0.0.5", trogdor_lease)]
              {["aa:bb:cc:00:11:22" := <["online" := PBool true]> trogdor_lease]})
    as [d'|] eqn:H; [| vm_compute in H; discriminate].
  exists d'. split; [done |].
  destruct (dhcp_status_source no_vendor _ _ _ _ H) as (Hip & _ & _).
  rewrite (Hip trogdor_lease); [reflexivity | reflexivity | reflexivity |].
  intros E. apply (f_equal (λ m : gmap string pyval, m !! "ip")) in E.
  vm_compute in E. discriminate.
Defined.

End ARPExtra.

(** ** [opnsense_mcp/server_sse.py]: the REST endpoints beside the
    dispatcher *)

Module Endpoints.

(** [initialize], the handler of [POST /initialize]; the argument is the
    field [protocolVersion] of the request model, a string. The answer
    carries the version beside constant server data. *)
Definition initialize (protocolVersion : string) : string :=
  if negb (truthy (PStr protocolVersion))
     || String.eqb protocolVersion "undefined"
  then "2024-11-05" else protocolVersion.

End Endpoints.

(** ** The dispatcher: methods, aliases and versions *)

Module DispatcherExtra.
Import Dispatcher DispatcherProps.

Section Methods.
Variable tools : string → argval → exc string.
Variable dict_str : gmap string pyval → string.

(** The tool name and the arguments that [jsonrpc_endpoint] reads from the
    parameters of a call. *)
Definition tool_name_of (params : gmap string argval) : argval :=
  arg_or (arg_get params "name") (arg_get params "tool").

Definition arguments_of (params : gmap string argval) : argval :=
  arg_or (arg_or (arg_get params "arguments") (arg_get params "args"))
         (AObj ∅).

Lemma call_known_tool name arguments :
  In name tool_names →
  call_tool tools dict_str (AVal (PStr name)) arguments
  = try_except (tools name arguments)
      (λ e, Raise (HTTPException 500
                     ("Error executing tool: " +:+ exn_str e))).
Proof.
  simpl. intros [<-|[<-|[<-|[<-|[<-|[<-|[<-|[<-|[<-|[]]]]]]]]]]; reflexivity.
Qed.

(** A call of a tool that exists and returns: the text of the tool comes
    back as the result, under the id of the request. The name is read from
    [name] and, when [name] is missing or empty, from [tool]; the arguments
    from [arguments], else from [args], else they are the empty
    dictionary. *)
Theorem call_returns_tool_text request name text :
  tools_call (method request) →
  In name tool_names →
  tool_name_of (default ∅ (params request)) = AVal (PStr name) →
  tools name (arguments_of (default ∅ (params request))) = Ok text →
  jsonrpc_endpoint tools dict_str request = Result (id request) (Content text).
Proof.
  intros (H1 & H2 & H3)%method_is_tools_call Hin Hname Htext.
  unfold jsonrpc_endpoint. rewrite H1, H2, H3.
  fold (tool_name_of (default ∅ (params request))).
  fold (arguments_of (default ∅ (params request))).
  rewrite Hname, (call_known_tool name _ Hin), Htext. simpl.
  assert (Hne : name ≠ "").
  { intros ->. simpl in Hin. intuition discriminate. }
  apply String.eqb_neq in Hne. by rewrite Hne.
Qed.

(** [name] wins over [tool]: when [name] is a non-empty string the key
    [tool] is not looked at; and an empty [name] is as good as none. *)
Theorem name_before_tool (params : gmap string argval) :
  (∀ n other, n ≠ "" → params !! "name" = Some (AVal (PStr n)) →
     tool_name_of (<["tool" := other]> params) = AVal (PStr n))
  ∧ (∀ t, params !! "name" = None ∨ params !! "name" = Some (AVal (PStr "")) →
       params !! "tool" = Some t → tool_name_of params = t)
  ∧ (∀ a other, arg_truthy a = true → params !! "arguments" = Some a →
       arguments_of (<["args" := other]> params) = a)
  ∧ (params !! "arguments" = None → params !! "args" = None →
     arguments_of params = AObj ∅).
Proof.
  unfold tool_name_of, arguments_of, arg_or, arg_get. repeat split.
  - intros n other Hn Hp. rewrite lookup_insert_ne, Hp by done. simpl.
    apply String.eqb_neq in Hn. by rewrite Hn.
  - intros t [Hp | Hp] Ht; by rewrite Hp, Ht.
  - intros a other Ha Hp. rewrite lookup_insert_ne, Hp by done.
    simpl. rewrite Ha. simpl. by rewrite Ha.
  - intros Ha Hb. by rewrite Ha, Hb.
Qed.

(** A method that the endpoint does not know is answered with code -32601
    and the name of the method, and no tool is run. The method
    [tools/execute] that [mcp_system.py] sends is one of them. *)
Theorem unknown_method request :
  ¬ In (method request)
      ["initialize"; "tools/list"; "ListOfferings"; "tools/call"; "tool/call"] →
  jsonrpc_endpoint tools dict_str request
  = Error (id request) (-32601) ("Method not found: " +:+ method request).
Proof.
  intros Hm. unfold jsonrpc_endpoint.
  destruct (String.eqb_spec (method request) "initialize") as [E|_];
    [destruct Hm; rewrite E; simpl; tauto |].
  destruct (String.eqb_spec (method request) "tools/list") as [E|_];
    [destruct Hm; rewrite E; simpl; tauto |].
  destruct (String.eqb_spec (method request) "ListOfferings") as [E|_];
    [destruct Hm; rewrite E; simpl; tauto |].
  destruct (String.eqb_spec (method request) "tools/call") as [E|_];
    [destruct Hm; rewrite E; simpl; tauto |].
  destruct (String.eqb_spec (method request) "tool/call") as [E|_];
    [destruct Hm; rewrite E; simpl; tauto |].
  reflexivity.
Qed.

(** The protocol version that [initialize] answers with, over JSON-RPC
    and over REST, is never empty, null or "undefined": the version of the
    request is echoed when it is a proper one, and "2024-11-05" is answered
    otherwise. *)
Theorem initialize_version msg_id (params : option (gmap string argval))
    (protocolVersion : string) :
  (∃ v, jsonrpc_endpoint tools dict_str
          {| id := msg_id; method := "initialize"; params := params |}
        = Result msg_id (Initialized v)
        ∧ arg_truthy v = true ∧ arg_is v "undefined" = false
        ∧ (v = arg_get (default ∅ params) "protocolVersion"
           ∨ v = AVal (PStr "2024-11-05")))
  ∧ Endpoints.initialize protocolVersion ≠ ""
  ∧ Endpoints.initialize protocolVersion ≠ "undefined"
  ∧ (protocolVersion ≠ "" → protocolVersion ≠ "undefined" →
     Endpoints.initialize protocolVersion = protocolVersion).
Proof.
  split.
  - unfold jsonrpc_endpoint. simpl.
    set (v := arg_get (default ∅ params) "protocolVersion").
    destruct (arg_truthy v) eqn:Ht; simpl.
    + destruct (arg_is v "undefined") eqn:Hu; eexists;
        (split; [reflexivity |]); auto.
    + eexists. split; [reflexivity |]. auto.
  - unfold Endpoints.initialize. simpl.
    destruct (String.eqb_spec protocolVersion "") as [-> | H1]; simpl;
      [repeat split; done |].
    destruct (String.eqb_spec protocolVersion "undefined") as [-> | H2];
      repeat split; done.
Qed.

End Methods.

Definition echo (name : string) (arguments : argval) : exc string :=
  Ok ("ran " +:+ name).

Definition no_repr (d : gmap string pyval) : string := "{...}".

Lemma call_returns_tool_text_witness :
  jsonrpc_endpoint echo no_repr
    {| id := Some "7"; method := "tool/call";
       params := Some (<["tool" := AVal (PStr "dhcp")]> ∅) |}
  = Result (Some "7") (Content "ran dhcp").
Proof.
  apply (call_returns_tool_text echo no_repr
           {| id := Some "7"; method := "tool/call";
              params := Some (<["tool" := AVal (PStr "dhcp")]> ∅) |}
           "dhcp" "ran dhcp").
  - by right.
  - simpl. tauto.
  - reflexivity.
  - reflexivity.
Defined.

Lemma unknown_method_witness :
  jsonrpc_endpoint echo no_repr
    {| id := Some "1"; method := "tools/execute";
       params := Some (<["tool" := AVal (PStr "system")]> ∅) |}
  = Error (Some "1") (-32601) "Method not found: tools/execute".
Proof.
  apply (unknown_method echo no_repr
           {| id := Some "1"; method := "tools/execute";
              params := Some (<["tool" := AVal (PStr "system")]> ∅) |}).
  simpl. intros H. repeat (destruct H as [H | H]; [discriminate |]). done.
Defined.

Lemma tools_call_codes_witness :
  (-32603 = -32602 ∨ -32603 = -32603)%Z.
Proof.
  apply (tools_call_codes (λ _ _, Raise (Upstream "timeout")) no_repr
           {| id := Some "2"; method := "tools/call";
              params := Some (<["name" := AVal (PStr "arp")]> ∅) |}
           (Some "2") (-32603) "Error executing tool: timeout").
  - by left.
  - reflexivity.
Defined.

End DispatcherExtra.

(** ** The push channel: the registry along a run, the close signal and
    client ids used twice *)

Module BrokerExtra.
Import Broker BrokerProps.

Section Channel.
Variable json_dumps : argval → string.

Lemma wf_set_queue q items st :
  wf st → q ∈ dom (queues st) →
  wf {| queues := <[q := items]> (queues st);
        client_connections := client_connections st |}.
Proof.
  intros [Hd Hi] Hq. split; simpl; [| exact Hi].
  intros c q' H. rewrite dom_insert_L. apply elem_of_union_r. by eapply Hd.
Qed.

Lemma wf_get g q st : wf st → wf (get g q st).2.
Proof.
  intros Hwf. unfold get.
  destruct (queues st !! q) as [[|[e|] rest]|] eqn:Hq; simpl; try done.
  - apply wf_set_queue; [done |]. apply elem_of_dom. by eexists.
  - apply wf_cleanup, wf_set_queue; [done |]. apply elem_of_dom. by eexists.
Qed.

Lemma wf_loop g st : wf st → wf (loop g st).2.
Proof.
  intros Hwf. unfold loop.
  destruct (client_connections st !! client_id g); simpl;
    [by apply wf_get | by apply wf_cleanup].
Qed.

Lemma wf_resume g st : wf st → wf (resume json_dumps g st).2.
Proof.
  intros Hwf. unfold resume. destruct (position g); simpl; try done.
  - by apply wf_loop, wf_register.
  - by apply wf_get.
  - by apply wf_loop.
Qed.

Lemma wf_cancel g st : wf st → wf (cancel g st).2.
Proof.
  intros Hwf. unfold cancel.
  destruct (position g); simpl; try done; by apply wf_cleanup.
Qed.

(** The registry stays sound whatever happens: from a state in which
    every registered client id has its queue and no two ids share one,
    every schedule of requests and posts, and a cancellation at any point,
    lead to such a state again. *)
Theorem registry_stays_sound schedule g st :
  wf st →
  wf (run json_dumps schedule g st).2
  ∧ wf (cancel (run json_dumps schedule g st).1.2
          (run json_dumps schedule g st).2).2.
Proof.
  intros Hwf.
  assert (H : wf (run json_dumps schedule g st).2).
  { revert g st Hwf. induction schedule as [|[|c d] rest IH]; intros g st Hwf.
    - done.
    - simpl. pose proof (wf_resume g st Hwf) as Hr.
      destruct (resume json_dumps g st) as [[o g'] st']. simpl in Hr.
      specialize (IH g' st' Hr).
      by destruct (run json_dumps rest g' st') as [[evs g''] st''].
    - simpl. apply IH. by apply wf_send. }
  split; [exact H | by apply wf_cancel].
Qed.

(** The [connected] event leaves before the queue exists: a client that
    has received it and whose consumer has not yet asked for the next item
    cannot be posted to. *)
Theorem post_before_registration c data st :
  client_connections st !! c = None →
  ∃ g1, resume json_dumps (sse_endpoint c) st
        = (Yield (connected json_dumps c), g1, st)
        ∧ send_to_client json_dumps c data st
          = (Raise (HTTPException 404 ("Client " +:+ c +:+ " not connected")),
             st).
Proof.
  intros Hc. eexists. split; [reflexivity |]. by apply send_not_connected.
Qed.

(** The close signal. When the queue of a waiting stream holds events,
    then [None], then more items, the consumer receives the events before
    the signal in order and then the end of the stream; the client id is
    unregistered, what was queued behind the signal is never delivered, and
    further posts are refused. *)
Theorem close_signal c g st q pending behind data :
  wf st →
  client_id g = c → position g = AtGet q →
  client_connections st !! c = Some q →
  queues st !! q = Some ((Some <$> pending) ++ None :: behind) →
  ∃ g' st',
    run json_dumps (replicate (S (length pending)) Next) g st
    = (pending, g', st')
    ∧ position g' = Finished
    ∧ client_connections st' !! c = None
    ∧ (∀ more, run json_dumps (replicate more Next) g' st' = ([], g', st'))
    ∧ send_to_client json_dumps c data st'
      = (Raise (HTTPException 404 ("Client " +:+ c +:+ " not connected")),
         st').
Proof.
  intros Hwf Hg Hp Hq Hi.
  assert (Hstep : ∀ g st items,
    client_id g = c →
    (position g = AtGet q ∨ position g = AtYield) →
    client_connections st !! c = Some q →
    queues st !! q = Some items →
    resume json_dumps g st = get g q st).
  { intros g0 st0 items Hg0 [Hp0 | Hp0] Hq0 Hi0; unfold resume, loop;
      rewrite Hp0; [done | by rewrite Hg0, Hq0]. }
  assert (Hgen : ∀ evs g0 st0,
    client_id g0 = c →
    (position g0 = AtGet q ∨ position g0 = AtYield) →
    client_connections st0 !! c = Some q →
    queues st0 !! q = Some ((Some <$> evs) ++ None :: behind) →
    ∃ g' st',
      run json_dumps (replicate (S (length evs)) Next) g0 st0
      = (evs, g', st')
      ∧ g' = {| client_id := c; position := Finished |}
      ∧ client_connections st' !! c = None).
  { clear Hwf Hg Hp Hq Hi. intros evs.
    assert (Hnext : ∀ rest g0 st0,
      run json_dumps (Next :: rest) g0 st0
      = let '(out, g', st') := resume json_dumps g0 st0 in
        let '(evs, g'', st'') := run json_dumps rest g' st' in
        (match out with Yield e => e :: evs | _ => evs end, g'', st''))
      by reflexivity.
    induction evs as [|e evs IH]; intros g0 st0 Hg0 Hp0 Hq0 Hi0;
      simpl in Hi0; cbn [length replicate]; rewrite Hnext;
      rewrite (Hstep g0 st0 _ Hg0 Hp0 Hq0 Hi0); unfold get; rewrite Hi0;
      cbv beta iota.
    - simpl. rewrite Hg0. do 2 eexists.
      split; [reflexivity |]. split; [done |]. simpl. apply lookup_delete_eq.
    - destruct (IH {| client_id := client_id g0; position := AtYield |}
                   {| queues := <[q := (Some <$> evs) ++ None :: behind]>
                                  (queues st0);
                      client_connections := client_connections st0 |}
                   Hg0 (or_intror eq_refl) Hq0 (lookup_insert_eq _ _ _))
        as (g' & st' & Hrun & Hg' & Hc').
      cbn [replicate] in Hrun.
      change (list_fmap Event (option Event) Some evs) with (Some <$> evs).
      rewrite Hrun. exists g', st'. auto. }
  destruct (Hgen pending g st Hg (or_introl Hp) Hq Hi)
    as (g' & st' & Hrun & -> & Hc').
  do 2 eexists. split; [exact Hrun |]. split; [done |]. split; [done |].
  split; [| by apply send_not_connected].
  induction more as [|more IH]; simpl; [done |]. by rewrite IH.
Qed.

(** A client id used twice. While a first stream of [c] waits on its
    queue, a second connection with the same id registers a new queue
    under [c]. From then on a post to [c] reaches the second stream and not
    the first; and when the first stream is closed, its cleanup removes the
    registration of [c], so that posts are refused although the second
    stream is still open. *)
Theorem client_id_used_twice c first st q data :
  wf st →
  client_id first = c → position first = AtGet q →
  client_connections st !! c = Some q →
  queues st !! q = Some [] →
  ∃ g1 second st2 st3,
    resume json_dumps (sse_endpoint c) st
    = (Yield (connected json_dumps c), g1, st)
    ∧ resume json_dumps g1 st = (Pending, second, st2)
    ∧ send_to_client json_dumps c data st2 = (Ok "sent", st3)
    ∧ (resume json_dumps first st3).1.1 = Pending
    ∧ (resume json_dumps second st3).1.1
      = Yield (event_of json_dumps data)
    ∧ send_to_client json_dumps c data (cancel first st3).2
      = (Raise (HTTPException 404 ("Client " +:+ c +:+ " not connected")),
         (cancel first st3).2).
Proof.
  intros Hwf Hc Hp Hq Hitems.
  set (q' := fresh (dom (queues st))).
  assert (Hne : q' ≠ q).
  { intros E. pose proof (is_fresh (dom (queues st))) as Hf.
    fold q' in Hf. rewrite E in Hf. apply Hf, elem_of_dom. by eexists. }
  do 4 eexists. split; [reflexivity |].
  split.
  { unfold resume, loop, get, register. simpl. fold q'.
    rewrite lookup_insert_eq. simpl. rewrite lookup_insert_eq. reflexivity. }
  split.
  { unfold send_to_client, register. simpl. fold q'.
    rewrite lookup_insert_eq. reflexivity. }
  split; [| split].
  - unfold resume. rewrite Hp. unfold get, put. simpl.
    rewrite lookup_insert_eq. simpl.
    rewrite !lookup_insert_ne, Hitems by done. reflexivity.
  - unfold resume. simpl. unfold get, put. simpl.
    rewrite !lookup_insert_eq. reflexivity.
  - apply send_not_connected. unfold cancel. rewrite Hp. simpl. rewrite Hc.
    apply lookup_delete_eq.
Qed.

End Channel.

Lemma post_before_registration_witness :
  ∃ g1, resume unserialized (sse_endpoint "dashboard") start
        = (Yield (connected unserialized "dashboard"), g1, start)
        ∧ send_to_client unserialized "dashboard" (post 1) start
          = (Raise (HTTPException 404 "Client dashboard not connected"),
             start).
Proof.
  exact (post_before_registration unserialized "dashboard" (post 1) start
           eq_refl).
Defined.

Lemma registry_stays_sound_witness :
  wf (run unserialized
        [Next; Next; Send "dashboard" (post 1); Next] (sse_endpoint "dashboard")
        start).2.
Proof.
  exact (proj1 (registry_stays_sound unserialized
                  [Next; Next; Send "dashboard" (post 1); Next]
                  (sse_endpoint "dashboard") start wf_empty)).
Defined.

(** A stream of ["dashboard"] that waits on queue 0, which holds one event
    and the close signal, and then one more event. *)
Definition closing : State :=
  {| queues := {[ 0%nat := [Some (event_of unserialized (post 1)); None;
                            Some (event_of unserialized (post 2))] ]};
     client_connections := {[ "dashboard" := 0%nat ]} |}.

Definition waiting : State :=
  {| queues := {[ 0%nat := [] ]};
     client_connections := {[ "dashboard" := 0%nat ]} |}.

Definition consumer : Generator :=
  {| client_id := "dashboard"; position := AtGet 0 |}.

Lemma wf_one_queue items :
  wf {| queues := {[ 0%nat := items ]};
        client_connections := {[ "dashboard" := 0%nat ]} |}.
Proof.
  split; simpl.
  - intros c q' [_ <-]%lookup_singleton_Some. rewrite dom_singleton_L.
    by apply elem_of_singleton.
  - intros c1 c2 q' [<- _]%lookup_singleton_Some [<- _]%lookup_singleton_Some.
    done.
Qed.

Lemma close_signal_witness :
  ∃ g' st',
    run unserialized [Next; Next] consumer closing
    = ([event_of unserialized (post 1)], g', st')
    ∧ position g' = Finished
    ∧ client_connections st' !! "dashboard" = None.
Proof.
  destruct (close_signal unserialized "dashboard" consumer closing 0%nat
              [event_of unserialized (post 1)]
              [Some (event_of unserialized (post 2))] (post 3)
              (wf_one_queue _) eq_refl eq_refl eq_refl eq_refl)
    as (g' & st' & Hrun & Hp & Hc & _).
  by exists g', st'.
Defined.

Lemma client_id_used_twice_witness :
  ∃ second st3,
    (resume unserialized consumer st3).1.1 = Pending
    ∧ (resume unserialized second st3).1.1
      = Yield (event_of unserialized (post 1))
    ∧ (send_to_client unserialized "dashboard" (post 1)
         (cancel consumer st3).2).1
      = Raise (HTTPException 404 "Client dashboard not connected").
Proof.
  destruct (client_id_used_twice unserialized "dashboard" consumer waiting
              0%nat (post 1) (wf_one_queue _) eq_refl eq_refl eq_refl eq_refl)
    as (g1 & second & st2 & st3 & _ & _ & _ & H1 & H2 & H3).
  exists second, st3. split; [done |]. split; [done |]. by rewrite H3.
Defined.

End BrokerExtra.
